(** * Token monitor (main2.py): membership client, validation pass,
      pollers and coordinated exit

    The development follows the source file function by function.

    - The remote service is a script of replies: every HTTP request the
      code issues consumes the next reply of the script.  A reply is
      either an HTTP response or a transport failure (aiohttp raises);
      a script that has run out answers nothing, which is a transport
      failure as well.
    - Every client function returns its Python value together with the
      requests and sleeps it performed and the replies it left unread.
    - The pollers ([monitor_token]) are coroutines; they are modelled as
      a machine whose atomic steps are the code between two suspension
      points ([await]).  Console rendering and logging are left out,
      except for the rows of the status table.
    - A Python [str] is represented by its UTF-8 encoding; what
      [str.isdigit] accepts beyond the digits every Unicode database
      has is part of the environment of a run. *)

From Stdlib Require Import QArith Ascii DecimalString.
From stdpp Require Import gmap strings list fin_maps.

Local Open Scope string_scope.
Local Open Scope list_scope.
Local Open Scope Z_scope.

(** ** The remote service as seen by aiohttp *)

(** The four URLs of the source. *)
Inductive endpoint :=
| UsersMe        (* GET    /users/@me                 *)
| GuildMember    (* GET    /guilds/{guild_id}/members/@me *)
| UserGuilds     (* GET    /users/@me/guilds          *)
| LeaveGuild.    (* DELETE /users/@me/guilds/{guild_id} *)

(** [response.headers.get("Retry-After", 5)] followed by [float(...)]:
    the header is absent, holds a number, or holds text [float] rejects
    with ValueError (an HTTP-date, for instance). *)
Inductive retry_after_header :=
| NoRetryAfter
| RetryAfterNumber (seconds : Q)
| RetryAfterText.

(** [await response.json()]: the body is not JSON ([json] raises), or a
    list of guild objects; a guild object has an ['id'] entry or not
    (then [guild['id']] raises KeyError). *)
Inductive json_body :=
| NotJson
| GuildList (ids : list (option string)).

Record response := Response {
  status : Z;
  retry_after : retry_after_header;
  body : json_body
}.

Inductive reply :=
| Answered (r : response)
| Failed.                      (* the request raised: timeout, DNS, ... *)

Inductive event :=
| Request (e : endpoint) (r : reply)
| Sleep (seconds : Q).

(** What a call gives back: its value, what it did, what it left. *)
Record ran (A : Type) := Ran {
  returned : A;
  effects : list event;
  unread : list reply
}.
Arguments Ran {A} _ _ _.
Arguments returned {A} _.
Arguments effects {A} _.
Arguments unread {A} _.

(** Prefix the effects of an earlier part of the same call. *)
Definition after {A} (before : list event) (r : ran A) : ran A :=
  Ran (returned r) (before ++ effects r) (unread r).

(** One request: the next reply of the script, [Failed] when none is left. *)
Definition next_reply (net : list reply) : reply * list reply :=
  match net with
  | [] => (Failed, [])
  | r :: net' => (r, net')
  end.

(** [float(response.headers.get("Retry-After", 5))]; [None] is ValueError. *)
Definition float_retry_after (r : response) : option Q :=
  match retry_after r with
  | NoRetryAfter => Some (5 # 1)%Q
  | RetryAfterNumber d => Some d
  | RetryAfterText => None
  end.

(** ** check_token_validity (lines 52-74) *)

Fixpoint check_token_validity (net : list reply) : ran bool :=
  match net with
  | [] => Ran false [Request UsersMe Failed] []
  | Failed :: net' => Ran false [Request UsersMe Failed] net'
  | Answered r :: net' =>
      if status r =? 200 then Ran true [Request UsersMe (Answered r)] net'
      else if status r =? 401 then Ran false [Request UsersMe (Answered r)] net'
      else if status r =? 429 then
        match float_retry_after r with
        | None => Ran false [Request UsersMe (Answered r)] net'
        | Some d =>
            after [Request UsersMe (Answered r); Sleep d]
                  (check_token_validity net')
        end
      else Ran false [Request UsersMe (Answered r)] net'
  end.

(** ** leave_server (lines 151-173) *)

Fixpoint leave_server (net : list reply) : ran bool :=
  match net with
  | [] => Ran false [Request LeaveGuild Failed] []
  | Failed :: net' => Ran false [Request LeaveGuild Failed] net'
  | Answered r :: net' =>
      if status r =? 204 then Ran true [Request LeaveGuild (Answered r)] net'
      else if status r =? 404 then Ran true [Request LeaveGuild (Answered r)] net'
      else if status r =? 429 then
        match float_retry_after r with
        | None => Ran false [Request LeaveGuild (Answered r)] net'
        | Some d =>
            after [Request LeaveGuild (Answered r); Sleep d]
                  (leave_server net')
        end
      else Ran false [Request LeaveGuild (Answered r)] net'
  end.

(** ** check_server_membership (lines 76-117) *)

(** The dict [{"valid": ..., "in_server": ...}]. *)
Record membership := Membership {
  valid : bool;
  in_server : bool
}.

Global Instance membership_eq_dec : EqDecision membership.
Proof. solve_decision. Defined.

(** [any(str(guild['id']) == str(guild_id) for guild in guilds)]:
    [None] when a guild without ['id'] is met before a match. *)
Fixpoint any_guild (guild_id : string) (ids : list (option string))
  : option bool :=
  match ids with
  | [] => Some false
  | None :: _ => None
  | Some id :: ids' =>
      if String.eqb id guild_id then Some true else any_guild guild_id ids'
  end.

(** The fallback of lines 103-114, once the guild list was requested. *)
Definition guilds_fallback (guild_id : string) (g : reply) : membership :=
  match g with
  | Failed => Membership true false
  | Answered gr =>
      if status gr =? 200 then
        match body gr with
        | NotJson => Membership true false
        | GuildList ids =>
            match any_guild guild_id ids with
            | Some true => Membership true true
            | Some false => Membership true false
            | None => Membership true false
            end
        end
      else Membership true false
  end.

(** The recursion of line 101 restarts the whole call, validity check
    included; [fuel] bounds the number of restarts. *)
Fixpoint check_server_membership (fuel : nat) (guild_id : string)
    (net : list reply) : option (ran membership) :=
  match fuel with
  | O => None
  | S fuel' =>
      let v := check_token_validity net in
      if negb (returned v) then
        Some (Ran (Membership false false) (effects v) (unread v))
      else
        let (m, net1) := next_reply (unread v) in
        let asked := effects v ++ [Request GuildMember m] in
        match m with
        | Failed => Some (Ran (Membership true false) asked net1)
        | Answered r =>
            if status r =? 200 then Some (Ran (Membership true true) asked net1)
            else if status r =? 404 then
              Some (Ran (Membership true false) asked net1)
            else if status r =? 401 then
              Some (Ran (Membership false false) asked net1)
            else if status r =? 429 then
              match float_retry_after r with
              | None => Some (Ran (Membership true false) asked net1)
              | Some d =>
                  after (asked ++ [Sleep d])
                    <$> check_server_membership fuel' guild_id net1
              end
            else
              let (g, net2) := next_reply net1 in
              Some (Ran (guilds_fallback guild_id g)
                        (asked ++ [Request UserGuilds g]) net2)
        end
  end.

(** Every restart reads at least two replies, so this is fuel enough. *)
Definition enough (net : list reply) : nat := S (length net).

(** ** Text *)

(** A Python [str] is represented by its UTF-8 encoding: the characters
    [":"] and ["@"] and the ASCII digits are single bytes that occur in
    no other character's encoding, so counting, searching and splitting
    at them is the same on the bytes as on the characters. *)

(** The characters [str.strip] removes, those [str.isspace] holds of
    (tab to carriage return, U+001C to U+001F, space, U+0085, U+00A0,
    U+1680, U+2000 to U+200A, U+2028, U+2029, U+202F, U+205F, U+3000),
    each as its UTF-8 bytes. *)
Definition whitespace : list (list ascii) :=
  map (map ascii_of_nat)
    [[9]; [10]; [11]; [12]; [13]; [28]; [29]; [30]; [31]; [32];
     [194; 133]; [194; 160]; [225; 154; 128];
     [226; 128; 128]; [226; 128; 129]; [226; 128; 130]; [226; 128; 131];
     [226; 128; 132]; [226; 128; 133]; [226; 128; 134]; [226; 128; 135];
     [226; 128; 136]; [226; 128; 137]; [226; 128; 138];
     [226; 128; 168]; [226; 128; 169]; [226; 128; 175];
     [226; 129; 159]; [227; 128; 128]]%nat.

(** [l] without [pat] at its front. *)
Fixpoint drop_prefix (pat l : list ascii) : option (list ascii) :=
  match pat, l with
  | [], _ => Some l
  | a :: pat', b :: l' => if Ascii.eqb a b then drop_prefix pat' l' else None
  | _ :: _, [] => None
  end.

(** [l] without the first of [pats] it starts with. *)
Fixpoint drop_first (pats : list (list ascii)) (l : list ascii)
  : option (list ascii) :=
  match pats with
  | [] => None
  | pat :: pats' =>
      match drop_prefix pat l with
      | Some l' => Some l'
      | None => drop_first pats' l
      end
  end.

(** Drop characters of [pats] from the front for as long as there is
    one; [fuel] bounds their number. *)
Fixpoint lstrip_by (pats : list (list ascii)) (fuel : nat) (l : list ascii)
  : list ascii :=
  match fuel with
  | O => l
  | S fuel' =>
      match drop_first pats l with
      | Some l' => lstrip_by pats fuel' l'
      | None => l
      end
  end.

Definition lstrip (l : list ascii) : list ascii :=
  lstrip_by whitespace (length l) l.

Definition rstrip (l : list ascii) : list ascii :=
  rev (lstrip_by (map (@rev ascii) whitespace) (length l) (rev l)).

(** [s.strip()] *)
Definition strip (s : string) : string :=
  String.string_of_list_ascii
    (rstrip (lstrip (String.list_ascii_of_string s))).

(** The six low bits of a continuation byte. *)
Definition continuation (a : ascii) : option N :=
  let n := N_of_ascii a in
  if (128 <=? n)%N && (n <? 192)%N then Some (n - 128)%N else None.

(** The characters of a [str], as code points; [None] on bytes that are
    no UTF-8. *)
Fixpoint code_points (l : list ascii) : option (list N) :=
  match l with
  | [] => Some []
  | a :: l1 =>
      let n := N_of_ascii a in
      if (n <? 128)%N then cons n <$> code_points l1
      else if (n <? 192)%N then None
      else if (n <? 224)%N then
        match l1 with
        | b :: l2 =>
            match continuation b with
            | Some x => cons ((n - 192) * 64 + x)%N <$> code_points l2
            | None => None
            end
        | _ => None
        end
      else if (n <? 240)%N then
        match l1 with
        | b :: c :: l3 =>
            match continuation b, continuation c with
            | Some x, Some y =>
                cons (((n - 224) * 64 + x) * 64 + y)%N <$> code_points l3
            | _, _ => None
            end
        | _ => None
        end
      else
        match l1 with
        | b :: c :: d :: l4 =>
            match continuation b, continuation c, continuation d with
            | Some x, Some y, Some z =>
                cons ((((n - 240) * 64 + x) * 64 + y) * 64 + z)%N
                  <$> code_points l4
            | _, _, _ => None
            end
        | _ => None
        end
  end.

(** Digits beyond ASCII that are in every version of the Unicode
    database: superscript two, three and one, and the Arabic-Indic,
    extended Arabic-Indic, Devanagari, Bengali and fullwidth digits. *)
Definition common_digit (c : N) : bool :=
  existsb (fun range : N * N => (range.1 <=? c)%N && (c <=? range.2)%N)
    [(178, 179); (185, 185); (1632, 1641); (1776, 1785); (2406, 2415);
     (2534, 2543); (65296, 65305)]%N.

(** Whether a character is a digit for [str.isdigit]: among the ASCII
    characters these are ["0"] to ["9"]; beyond them, the digits above
    and whatever else the Unicode database of the interpreter counts
    as one ([digits]; it grows with the Unicode version). *)
Definition is_digit (digits : N → bool) (c : N) : bool :=
  if (c <? 128)%N then (48 <=? c)%N && (c <=? 57)%N
  else common_digit c || digits c.

(** [s.isdigit()]: false on the empty string. *)
Definition isdigit (digits : N → bool) (s : string) : bool :=
  match code_points (String.list_ascii_of_string s) with
  | Some (c :: cs) => forallb (is_digit digits) (c :: cs)
  | _ => false
  end.

Definition colon : ascii := ":"%char.

(** [":" in line] *)
Definition has_colon (line : string) : bool :=
  existsb (Ascii.eqb colon) (String.list_ascii_of_string line).

(** [s.split(":")] *)
Fixpoint split_colon (field : list ascii) (l : list ascii) : list string :=
  match l with
  | [] => [String.string_of_list_ascii (rev field)]
  | a :: l' =>
      if Ascii.eqb colon a
      then String.string_of_list_ascii (rev field) :: split_colon [] l'
      else split_colon (a :: field) l'
  end.

(** ** Exceptions *)

Inductive exception :=
| OSError                         (* token.txt cannot be opened *)
| ValueError (message : string)
| UnboundLocalError               (* all_exit_success read before line 370 *)
| KeyboardInterrupt.              (* not a subclass of Exception *)

Definition is_Exception (e : exception) : bool :=
  match e with
  | KeyboardInterrupt => false
  | _ => true
  end.

(** How a call ends. *)
Inductive outcome (A : Type) :=
| Returned (a : A)
| Raised (e : exception).
Arguments Returned {A} _.
Arguments Raised {A} _.

(** ** load_proxies, format_proxy, create_client_session (lines 20-50) *)

(** Lines 20-25. *)
Definition load_proxies (proxy_txt : option (list string)) : list string :=
  match proxy_txt with
  | None => []
  | Some lines => filter (fun l => l ≠ "") (map strip lines)
  end.

(** [proxy.count(":")] *)
Definition count_colons (s : string) : nat :=
  length (filter (fun a => a = colon) (String.list_ascii_of_string s)).

(** [proxy.rsplit("@", 1)]: the text before and after the last "@";
    [None] when there is no "@" (the list has one element then and the
    unpacking of line 32 raises). *)
Fixpoint rsplit_at (l : list ascii) : option (list ascii * list ascii) :=
  match l with
  | [] => None
  | a :: l' =>
      match rsplit_at l' with
      | Some (auth, host) => Some (a :: auth, host)
      | None => if Ascii.eqb a "@"%char then Some ([], l') else None
      end
  end.

(** Lines 27-36. *)
Definition format_proxy (proxy : string) : outcome (option string) :=
  if bool_decide (proxy = "") then Returned None
  else if (count_colons proxy =? 3)%nat then
    match rsplit_at (String.list_ascii_of_string proxy) with
    | Some (auth, host) =>
        Returned (Some (String.append "http://"
                          (String.append (String.string_of_list_ascii auth)
                             (String.append "@"
                                (String.string_of_list_ascii host)))))
    | None => Raised (ValueError "not enough values to unpack")
    end
  else if (count_colons proxy =? 1)%nat then
    Returned (Some (String.append "http://" proxy))
  else Returned None.

(** Lines 46-50: the proxy URL the session is created with. *)
Definition create_client_session (proxy : option string)
  : outcome (option string) :=
  match proxy with
  | Some p => if bool_decide (p = "") then Returned None else format_proxy p
  | None => Returned None
  end.

(** ** validate_tokens (lines 119-149) *)

(** A credential: the pair (nama_token, token). *)
Abbreviation credential := (string * string)%type.

(** [proxies[i % len(proxies)] if proxies else None] (lines 127, 338). *)
Definition proxy_for (proxies : list string) (i : nat) : option string :=
  match proxies with
  | [] => None
  | _ => proxies !! (i mod length proxies)%nat
  end.

(** The three lists the loop appends to; a row of [validation_results]
    is the label and the verdict printed next to it. *)
Record validation := Validation {
  valid_tokens : list credential;
  invalid_tokens : list credential;
  validation_results : list (string * bool)
}.

(** Lines 126-140 for the credentials from position [i] on.  The
    session of line 130 is created outside any [try]: when
    [format_proxy] raises, the loop ends there with its exception. *)
Fixpoint validate_loop (proxies : list string) (i : nat)
    (tokens : list credential) (acc : validation) (net : list reply)
  : ran (outcome validation) :=
  match tokens with
  | [] => Ran (Returned acc) [] net
  | (nama_token, token) :: tokens' =>
      match create_client_session (proxy_for proxies i) with
      | Raised e => Ran (Raised e) [] net
      | Returned _ =>
          let c := check_token_validity net in
          let is_valid := returned c in
          let rows := validation_results acc ++ [(nama_token, is_valid)] in
          let acc' :=
            if is_valid
            then Validation (valid_tokens acc ++ [(nama_token, token)])
                            (invalid_tokens acc) rows
            else Validation (valid_tokens acc)
                            (invalid_tokens acc ++ [(nama_token, token)])
                            rows in
          after (effects c)
                (validate_loop proxies (S i) tokens' acc' (unread c))
      end
  end.

(** The table printed at line 141, when the loop gets there. *)
Definition validation_table (proxies : list string)
    (tokens : list credential) (net : list reply)
  : option (list (string * bool)) :=
  match returned (validate_loop proxies 0 tokens (Validation [] [] []) net) with
  | Returned v => Some (validation_results v)
  | Raised _ => None
  end.

(** [all_tokens = valid_tokens + invalid_tokens] (line 147). *)
Definition validate_tokens (proxies : list string)
    (tokens : list credential) (net : list reply)
  : ran (outcome (list credential)) :=
  let r := validate_loop proxies 0 tokens (Validation [] [] []) net in
  Ran (match returned r with
       | Returned v => Returned (valid_tokens v ++ invalid_tokens v)
       | Raised e => Raised e
       end)
      (effects r) (unread r).

(** The proxy of each session: by position in [tokens] during the
    validation pass (line 127), by position in [all_tokens] when the
    monitoring sessions are opened (line 338). *)
Definition session_proxies (proxies : list string) (tokens : list credential)
  : list (string * option string) :=
  imap (fun i c => (c.1, proxy_for proxies i)) tokens.

(** ** monitor_token (lines 175-294) *)

(** [d.get("valid", True)] and [d.get("in_server", False)] on a status
    dict that may be the empty dict [{}] of [initial_status.get(n, {})]. *)
Definition get_valid (d : option membership) : bool :=
  from_option valid true d.
Definition get_in_server (d : option membership) : bool :=
  from_option in_server false d.

Inductive status_text :=
| BerhasilKeluar | TidakValid | ProsesKeluar | TidakDiServer | DiServer.

(** Lines 209-220. *)
Definition get_status_text (token_status : option membership)
    (is_forced_leave has_exited : bool) : status_text :=
  if has_exited then BerhasilKeluar
  else if negb (get_valid token_status) then TidakValid
  else if negb (get_in_server token_status) then
    (if is_forced_leave then ProsesKeluar else TidakDiServer)
  else DiServer.

(** One line of the table of lines 263-279. *)
Record row := Row {
  row_nama : string;
  row_status : status_text;
  row_message : string
}.

(** Where a poller is suspended. *)
Inductive control :=
| NotStarted                              (* the task has not run yet *)
| AwaitMembership                         (* line 223 *)
| AwaitLeaves (leave_tasks : list credential)   (* line 244 *)
| AwaitInterval                           (* line 292 *)
| Skipped                                 (* line 182, returns None *)
| Finished.                               (* line 294, returns exit_success *)

(** The arguments and the locals of one call of [monitor_token]. *)
Record poller := Poller {
  nama_token : string;
  token : string;
  last_status : option membership;
  status_messages : gmap string string;
  exit_success : gmap string bool;
  pc : control
}.

(** What the run shows from outside; [i] is the position of the poller
    in the list of sessions.  [Checked i before now]: the membership
    check of line 223 returned [now] while [last_status] was [before].
    [LeaveCalled i other active]: poller [i] called [leave_server] for
    [other] while [monitoring_active[0]] was [active]. *)
Inductive observation :=
| Checked (i : nat) (before : option membership) (now : membership)
| BanDetected (i : nat)                   (* line 231 *)
| LeaveCalled (i : nat) (other_nama : string) (active : bool)  (* line 239 *)
| Latched (i : nat)                       (* line 253 *)
| Displayed (i : nat) (rows : list row).  (* line 281 *)

(** The objects all pollers share (arguments of every call), the
    pollers, and the observations so far. *)
Record monitor := Monitor {
  monitoring_active : bool;               (* monitoring_active[0] *)
  initial_status : gmap string membership;
  all_tokens : list credential;
  guild_id : string;
  pollers : list poller;
  trace : list observation
}.

(** [initial_status.get(n, {}).get("in_server", False)]. *)
Definition initially_in_server (initial : gmap string membership)
    (n : string) : bool :=
  get_in_server (initial !! n).

(** Lines 236-241: the credentials [leave_server] is called for, and the
    messages set on the way. *)
Definition leave_targets (initial : gmap string membership)
    (tokens : list credential) (nama : string) : list credential :=
  filter (fun c => c.1 ≠ nama ∧ initially_in_server initial c.1 = true) tokens.

Definition mark_leaving (targets : list credential)
    (messages : gmap string string) : gmap string string :=
  foldl (fun m c => <[c.1 := "Proses keluar dari server"]> m) messages targets.

(** Lines 245-251: result [i] is filed under the [i]-th label of
    [all_tokens]. *)
Fixpoint record_results (i : nat) (results : list bool)
    (tokens : list credential) (p : poller) : poller :=
  match results with
  | [] => p
  | result :: results' =>
      let other_nama := default "" (fst <$> tokens !! i) in
      let p' :=
        if result then
          Poller (nama_token p) (token p) (last_status p)
                 (<[other_nama := "Berhasil keluar dari server"]>
                    (status_messages p))
                 (<[other_nama := true]> (exit_success p)) (pc p)
        else
          Poller (nama_token p) (token p) (last_status p)
                 (<[other_nama := "Gagal keluar dari server"]>
                    (status_messages p))
                 (exit_success p) (pc p) in
      record_results (S i) results' tokens p'
  end.

(** Lines 263-279, for the poller [p] that just read [status]. *)
Definition status_display (initial : gmap string membership)
    (tokens : list credential) (p : poller) (status : membership)
  : list row :=
  map (fun c =>
         let other_nama := c.1 in
         let message := default "" (status_messages p !! other_nama) in
         let token_status :=
           if bool_decide (other_nama = nama_token p)
           then Some status else initial !! other_nama in
         let is_forced :=
           if bool_decide (other_nama = nama_token p)
           then false else String.prefix "Proses" message in
         let has_exited := default false (exit_success p !! other_nama) in
         Row other_nama (get_status_text token_status is_forced has_exited)
             message)
      tokens.

Definition with_pc (c : control) (p : poller) : poller :=
  Poller (nama_token p) (token p) (last_status p) (status_messages p)
         (exit_success p) c.

Definition with_message (n message : string) (p : poller) : poller :=
  Poller (nama_token p) (token p) (last_status p)
         (<[n := message]> (status_messages p)) (exit_success p) (pc p).

Definition with_last_status (status : membership) (p : poller) : poller :=
  Poller (nama_token p) (token p) (Some status) (status_messages p)
         (exit_success p) (pc p).

(** What wakes a suspended poller up, with the replies the awaited
    calls have read meanwhile. *)
Inductive wakeup :=
| Start                                   (* first run of the task *)
| MembershipDone (net : list reply)       (* line 223 resumes *)
| LeavesDone (nets : list (list reply))   (* line 244 resumes, one script per task *)
| IntervalOver.                           (* line 292 resumes *)

(** Lines 232-241 of the ban branch: the messages it sets. *)
Definition ban_noted (s : monitor) (p : poller) : poller :=
  Poller (nama_token p) (token p) (last_status p)
         (mark_leaving
            (leave_targets (initial_status s) (all_tokens s) (nama_token p))
            (<[nama_token p := "Banned/Kicked dari server"]>
               (status_messages p)))
         (exit_success p) (pc p).

(** Line 222: the flag is read here and nowhere else. *)
Definition loop_top (active : bool) (p : poller) : poller :=
  with_pc (if active then AwaitMembership else Finished) p.

(** Lines 258-292: show the table, then sleep. *)
Definition display (s : monitor) (i : nat) (seen : observation) (p : poller)
    (status : membership) : poller * bool * list observation :=
  (with_pc AwaitInterval p, monitoring_active s,
   [seen; Displayed i (status_display (initial_status s) (all_tokens s) p status)]).

(** The code poller [i] runs from one suspension point to the next:
    the poller afterwards, the flag afterwards, what was observed. *)
Definition resume (s : monitor) (i : nat) (p : poller) (w : wakeup)
  : option (poller * bool * list observation) :=
  match pc p, w with
  | NotStarted, Start =>
      if negb (initially_in_server (initial_status s) (nama_token p))
      then Some (with_pc Skipped p, monitoring_active s, [])
      else
        let p1 := Poller (nama_token p) (token p)
                         (initial_status s !! nama_token p) ∅ ∅ NotStarted in
        Some (loop_top (monitoring_active s) p1, monitoring_active s, [])
  | AwaitMembership, MembershipDone net =>
      r ← check_server_membership (enough net) (guild_id s) net;
      let status := returned r in
      let seen := Checked i (last_status p) status in
      if bool_decide (Some status ≠ last_status p) then
        if negb (valid status) then
          Some (display s i seen
                  (with_last_status status
                     (with_message (nama_token p) "Token tidak valid" p))
                  status)
        else if negb (in_server status) && get_in_server (last_status p) then
          let targets :=
            leave_targets (initial_status s) (all_tokens s) (nama_token p) in
          let calls :=
            map (fun c => LeaveCalled i c.1 (monitoring_active s)) targets in
          match targets with
          | [] => Some (with_pc Finished (ban_noted s p), false,
                        [seen; BanDetected i; Latched i])
          | _ => Some (with_pc (AwaitLeaves targets) (ban_noted s p),
                       monitoring_active s, [seen; BanDetected i] ++ calls)
          end
        else Some (display s i seen (with_last_status status p) status)
      else Some (display s i seen p status)
  | AwaitLeaves leave_tasks, LeavesDone nets =>
      if bool_decide (length nets = length leave_tasks) then
        let results := map (fun net => returned (leave_server net)) nets in
        Some (with_pc Finished (record_results 0 results (all_tokens s) p),
              false, [Latched i])
      else None
  | AwaitInterval, IntervalOver =>
      Some (loop_top (monitoring_active s) p, monitoring_active s, [])
  | _, _ => None
  end.

Definition step (s : monitor) (it : nat * wakeup) : option monitor :=
  p ← pollers s !! it.1;
  '(p', active, seen) ← resume s it.1 p it.2;
  Some (Monitor active (initial_status s) (all_tokens s) (guild_id s)
                (<[it.1 := p']> (pollers s)) (trace s ++ seen)).

Fixpoint run (s : monitor) (schedule : list (nat * wakeup)) : option monitor :=
  match schedule with
  | [] => Some s
  | it :: schedule' => s' ← step s it; run s' schedule'
  end.

(** Lines 331-366: the flag is set, one poller is made per credential. *)
Definition start_monitoring (tokens : list credential)
    (initial : gmap string membership) (guild : string) : monitor :=
  Monitor true initial tokens guild
          (map (fun c => Poller c.1 c.2 None ∅ ∅ NotStarted) tokens) [].

(** Line 370: the dicts the pollers returned, merged; later ones win. *)
Definition all_exit_success (s : monitor) : gmap string bool :=
  foldl (fun acc p =>
           match pc p with
           | Finished => exit_success p ∪ acc
           | _ => acc
           end) ∅ (pollers s).

(** The number of [leave_server] calls made for a label. *)
Definition is_leave_for (n : string) (o : observation) : bool :=
  match o with
  | LeaveCalled _ other _ => bool_decide (other = n)
  | _ => false
  end.

Definition leave_calls (n : string) (tr : list observation) : nat :=
  length (filter (fun o => is_leave_for n o = true) tr).

Definition is_latch (o : observation) : bool :=
  match o with Latched _ => true | _ => false end.

(** ** main (lines 296-431) *)

(** Line 306. *)
Definition read_tokens (lines : list string) : list (list string) :=
  map (fun line => split_colon [] (String.list_ascii_of_string (strip line)))
      (filter (fun line => has_colon line = true) lines).

(** [for i, (nama_token, token) in enumerate(tokens)]: the entries that
    unpack, up to the first one that does not. *)
Fixpoint unpack (tokens : list (list string)) : list credential * bool :=
  match tokens with
  | [] => ([], true)
  | [nama; tok] :: tokens' =>
      let (l, all) := unpack tokens' in ((nama, tok) :: l, all)
  | _ :: _ => ([], false)
  end.

(** What the operator does at the prompt of line 324. *)
Inductive prompt :=
| Typed (line : string)
| CtrlC.

(** How the wait of line 369 ends. *)
Inductive session_end :=
| PollersReturned
| Interrupted                     (* KeyboardInterrupt, handled at line 372 *)
| Crashed.                        (* an Exception, handled at line 375 *)

(** What a run of the program meets: the two files, the service, the
    operator, and the further digits of the interpreter's Unicode
    database. *)
Record environment := Environment {
  token_txt : option (list string);
  proxy_txt : option (list string);
  network : list reply;
  operator : prompt;
  session : session_end;
  unicode_digits : N → bool
}.

(** Lines 337-342: the sessions of the pollers, created one by one from
    position [i] on; the first that cannot be created ends the loop. *)
Fixpoint open_sessions (proxies : list string) (i : nat)
    (tokens : list credential) : option exception :=
  match tokens with
  | [] => None
  | _ :: tokens' =>
      match create_client_session (proxy_for proxies i) with
      | Raised e => Some e
      | Returned _ => open_sessions proxies (S i) tokens'
      end
  end.

(** The body of the [try] of line 303: whether line 328 was reached
    (monitoring started), and the exception that leaves the block.
    The validation pass works on the entries that unpack and stops at
    the first that does not, unless a session failed before. *)
Definition main_body (env : environment) : bool * option exception :=
  match token_txt env with
  | None => (false, Some OSError)
  | Some lines =>
      let tokens := read_tokens lines in
      match tokens with
      | [] => (false, Some (ValueError "File token.txt kosong!"))
      | _ =>
          let proxies := load_proxies (proxy_txt env) in
          let (credentials, unpacked) := unpack tokens in
          match returned (validate_tokens proxies credentials (network env)) with
          | Raised e => (false, Some e)                (* line 32, by line 130 *)
          | Returned all_tokens =>
              if negb unpacked then
                (false, Some (ValueError "not enough values to unpack"))
              else
                match all_tokens with
                | [] => (false, None)                  (* line 321 *)
                | _ =>
                    match operator env with
                    | CtrlC => (false, Some KeyboardInterrupt)
                    | Typed line =>
                        let guild_id := strip line in
                        if bool_decide (guild_id = "")
                           || negb (isdigit (unicode_digits env) guild_id)
                        then (false, Some (ValueError
                               "Server ID harus angka dan tidak boleh kosong!"))
                        else
                          (true,
                           match open_sessions proxies 0 all_tokens with
                           | Some e => Some e          (* line 32, by line 341 *)
                           | None =>
                               match session env with
                               | PollersReturned => None
                               | Interrupted => Some UnboundLocalError  (* line 410 *)
                               | Crashed => Some UnboundLocalError      (* line 410 *)
                               end
                           end)
                    end
                end
          end
      end
  end.

Record ending := Ending {
  monitoring_started : bool;
  printed_error : option exception;       (* line 425 *)
  escaped : option exception              (* what leaves [main()] *)
}.

(** Lines 303-425: [except Exception] prints and lets [main] return. *)
Definition main (env : environment) : ending :=
  let (started, raised) := main_body env in
  match raised with
  | None => Ending started None None
  | Some e =>
      if is_Exception e then Ending started (Some e) None
      else Ending started None (Some e)
  end.

(** Lines 427-431: the status the interpreter exits with.  Nothing in
    the file calls [sys.exit]. *)
Definition exit_code (env : environment) : Z :=
  match escaped (main env) with
  | None => 0
  | Some KeyboardInterrupt => 0               (* line 430 *)
  | Some _ => 1                               (* uncaught: traceback *)
  end.

(** The configuration errors of the specification. *)
Definition no_credentials (env : environment) : Prop :=
  from_option read_tokens [] (token_txt env) = [].

Definition bad_resource_id (env : environment) : Prop :=
  match operator env with
  | Typed line =>
      strip line = "" ∨ isdigit (unicode_digits env) (strip line) = false
  | CtrlC => False
  end.

(** ** get_running_time (lines 192-197, and 384-387 in main) *)

(** [running_time.seconds] for a duration of [elapsed] whole seconds:
    a timedelta keeps its days in a field of their own, and its seconds
    between 0 and 86399. *)
Definition timedelta_seconds (elapsed : Z) : Z := elapsed mod 86400.

(** [divmod] *)
Definition divmod (a b : Z) : Z * Z := (a / b, a mod b).

(** [f"{n:02d}"] *)
Definition format_02d (n : Z) : string :=
  let digits := NilEmpty.string_of_int (Z.to_int n) in
  if (String.length digits <? 2)%nat then String.append "0" digits else digits.

Definition running_clock (elapsed : Z) : Z * Z * Z :=
  let (hours, remainder) := divmod (timedelta_seconds elapsed) 3600 in
  let (minutes, seconds) := divmod remainder 60 in
  (hours, minutes, seconds).

Definition get_running_time (elapsed : Z) : string :=
  let '(hours, minutes, seconds) := running_clock elapsed in
  String.append (format_02d hours)
    (String.append ":"
       (String.append (format_02d minutes)
          (String.append ":" (format_02d seconds)))).

(** ** The initial status pass of main (lines 349-351) *)

(** One membership check per session, in order, each filed under the
    label of its credential. *)
Fixpoint initial_status_pass (guild : string) (sessions : list credential)
    (initial : gmap string membership) (net : list reply)
  : option (ran (gmap string membership)) :=
  match sessions with
  | [] => Some (Ran initial [] net)
  | (nama, _) :: sessions' =>
      r ← check_server_membership (enough net) guild net;
      after (effects r)
        <$> initial_status_pass guild sessions'
              (<[nama := returned r]> initial) (unread r)
  end.

(** ** The tables of main (lines 352-354 and 396-404) *)

(** The status cell of the initial table. *)
Inductive initial_text :=
| InitialDiServer | InitialTidakValid | InitialTidakDiServer.

Definition initial_status_text (status : membership) : initial_text :=
  if in_server status then InitialDiServer
  else if negb (valid status) then InitialTidakValid
  else InitialTidakDiServer.

(** The status cell of the final table. *)
Inductive final_text :=
| Keluar | FinalTidakValid | BannedKicked | FinalDiServer.

Definition get_final_status_text (status : option membership)
    (has_exited : bool) : final_text :=
  if has_exited then Keluar
  else if negb (get_valid status) then FinalTidakValid
  else if negb (get_in_server status) then BannedKicked
  else FinalDiServer.

(** ** Vocabulary of the statements *)


(** A 429 answer whose Retry-After is absent or a number: the code
    sleeps and calls itself again. *)
Definition retried (r : reply) : bool :=
  match r with
  | Answered a => (status a =? 429) && bool_decide (is_Some (float_retry_after a))
  | Failed => false
  end.

(** The wait a retried answer asks for. *)
Definition delay_of (r : reply) : Q :=
  match r with
  | Answered a => default (5 # 1)%Q (float_retry_after a)
  | Failed => (5 # 1)%Q
  end.

(** What a call does on a run of retried answers at [e]. *)
Definition waits (e : endpoint) (limited : list reply) : list event :=
  flat_map (fun r => [Request e r; Sleep (delay_of r)]) limited.


(** The verdicts of the validation pass, in the order of the input. *)
Fixpoint verdicts (tokens : list credential) (net : list reply) : list bool :=
  match tokens with
  | [] => []
  | _ :: tokens' =>
      let c := check_token_validity net in
      returned c :: verdicts tokens' (unread c)
  end.

(** The credentials of [tokens] that got verdict [b], in input order. *)
Definition judged (b : bool) (tokens : list credential) (vs : list bool)
  : list credential :=
  (filter (fun x => x.2 = b) (zip tokens vs)).*1.

(** The poller an observation comes from. *)
Definition observer (o : observation) : nat :=
  match o with
  | Checked i _ _ | BanDetected i | LeaveCalled i _ _ | Latched i
  | Displayed i _ => i
  end.

(** The pollers that reached the ban branch, in order. *)
Fixpoint bans (tr : list observation) : list nat :=
  match tr with
  | [] => []
  | BanDetected i :: tr' => i :: bans tr'
  | _ :: tr' => bans tr'
  end.

(** The branches of [resume], one constructor each: what poller [i]
    becomes, the flag it leaves, what it lets observe. *)
Inductive resumes (s : monitor) (i : nat) (p : poller)
  : poller → bool → list observation → Prop :=
| resumes_skip :
    pc p = NotStarted →
    initially_in_server (initial_status s) (nama_token p) = false →
    resumes s i p (with_pc Skipped p) (monitoring_active s) []
| resumes_start :
    pc p = NotStarted →
    initially_in_server (initial_status s) (nama_token p) = true →
    resumes s i p
      (loop_top (monitoring_active s)
         (Poller (nama_token p) (token p) (initial_status s !! nama_token p)
                 ∅ ∅ NotStarted))
      (monitoring_active s) []
| resumes_same status :
    pc p = AwaitMembership →
    Some status = last_status p →
    resumes s i p (with_pc AwaitInterval p) (monitoring_active s)
      [Checked i (last_status p) status;
       Displayed i (status_display (initial_status s) (all_tokens s) p status)]
| resumes_invalid status :
    pc p = AwaitMembership →
    Some status ≠ last_status p →
    valid status = false →
    resumes s i p
      (with_pc AwaitInterval
         (with_last_status status
            (with_message (nama_token p) "Token tidak valid" p)))
      (monitoring_active s)
      [Checked i (last_status p) status;
       Displayed i
         (status_display (initial_status s) (all_tokens s)
            (with_last_status status
               (with_message (nama_token p) "Token tidak valid" p))
            status)]
| resumes_ban_alone status :
    pc p = AwaitMembership →
    valid status = true → in_server status = false →
    get_in_server (last_status p) = true →
    leave_targets (initial_status s) (all_tokens s) (nama_token p) = [] →
    resumes s i p (with_pc Finished (ban_noted s p)) false
      [Checked i (last_status p) status; BanDetected i; Latched i]
| resumes_ban status :
    pc p = AwaitMembership →
    valid status = true → in_server status = false →
    get_in_server (last_status p) = true →
    leave_targets (initial_status s) (all_tokens s) (nama_token p) ≠ [] →
    resumes s i p
      (with_pc
         (AwaitLeaves
            (leave_targets (initial_status s) (all_tokens s) (nama_token p)))
         (ban_noted s p))
      (monitoring_active s)
      ([Checked i (last_status p) status; BanDetected i]
       ++ map (fun c => LeaveCalled i c.1 (monitoring_active s))
            (leave_targets (initial_status s) (all_tokens s) (nama_token p)))
| resumes_changed status :
    pc p = AwaitMembership →
    Some status ≠ last_status p →
    valid status = true →
    in_server status = true ∨ get_in_server (last_status p) = false →
    resumes s i p (with_pc AwaitInterval (with_last_status status p))
      (monitoring_active s)
      [Checked i (last_status p) status;
       Displayed i
         (status_display (initial_status s) (all_tokens s)
            (with_last_status status p) status)]
| resumes_left leave_tasks results :
    pc p = AwaitLeaves leave_tasks →
    length results = length leave_tasks →
    resumes s i p
      (with_pc Finished (record_results 0 results (all_tokens s) p))
      false [Latched i]
| resumes_wake :
    pc p = AwaitInterval →
    resumes s i p (loop_top (monitoring_active s) p) (monitoring_active s) [].

(** The control points from which a poller can still reach line 281. *)
Definition polling (c : control) : bool :=
  match c with
  | NotStarted | AwaitMembership | AwaitInterval => true
  | _ => false
  end.

(** The two dicts of lines 185-186 while their poller is polling:
    nothing recorded as exited, no message but its own at line 229. *)
Definition own_notes_only (p : poller) : Prop :=
  exit_success p = ∅
  ∧ ∀ n m, status_messages p !! n = Some m →
           n = nama_token p ∧ m = "Token tidak valid".

(** The leave calls the ban branch of poller [i] makes for label [n]. *)
Definition owed (initial : gmap string membership) (tokens : list credential)
    (n : string) (i : nat) : nat :=
  match tokens !! i with
  | Some c =>
      length (filter (fun c' => c'.1 = n) (leave_targets initial tokens c.1))
  | None => 0
  end.

(** A poller standing in or behind the ban branch. *)
Definition banned (c : control) : Prop :=
  c = Finished ∨ ∃ leave_tasks, c = AwaitLeaves leave_tasks.


(** A guild list lines 106-107 cannot read: [json()] raises, or a guild
    without ['id'] is met before one matches. *)
Definition unreadable (guild_id : string) (b : json_body) : Prop :=
  match b with
  | NotJson => True
  | GuildList ids => any_guild guild_id ids = None
  end.

(** What one validity check per credential, in the order of the input,
    asks of the service. *)
Fixpoint checks (tokens : list credential) (net : list reply) : list event :=
  match tokens with
  | [] => []
  | _ :: tokens' =>
      let c := check_token_validity net in
      effects c ++ checks tokens' (unread c)
  end.

(** What they leave unread. *)
Fixpoint unchecked (tokens : list credential) (net : list reply)
  : list reply :=
  match tokens with
  | [] => net
  | _ :: tokens' => unchecked tokens' (unread (check_token_validity net))
  end.

(** None of the proxy lines the first [n] sessions are given is one
    [format_proxy] raises on: three colons and no "@". *)
Definition sessions_open (proxies : list string) (n : nat) : Prop :=
  ∀ k p, (k < n)%nat → proxy_for proxies k = Some p →
         count_colons p = 3%nat →
         "@"%char ∈ String.list_ascii_of_string p.

(** The two facts the fan-out keeps about a poller. *)
Definition files_in_range (initial : gmap string membership)
    (tokens : list credential) (p : poller) : Prop :=
  (∀ n b, exit_success p !! n = Some b →
          b = true ∧ pc p = Finished
          ∧ ∃ k, (k < length (leave_targets initial tokens (nama_token p)))%nat
                 ∧ tokens.*1 !! k = Some n)
  ∧ (∀ leave_tasks, pc p = AwaitLeaves leave_tasks →
                    leave_tasks = leave_targets initial tokens (nama_token p)).

(** * Properties *)

(** ** The client calls *)

Lemma after_returned {A} ev (r : ran A) : returned (after ev r) = returned r.
Proof. reflexivity. Qed.


Lemma after_after {A} ev1 ev2 (r : ran A) :
  after ev1 (after ev2 r) = after (ev1 ++ ev2) r.
Proof. unfold after. simpl. by rewrite app_assoc. Qed.

Lemma after_nil {A} (r : ran A) : after [] r = r.
Proof. by destruct r. Qed.

Lemma retried_inv r :
  retried r = true →
  ∃ a d, r = Answered a ∧ status a = 429 ∧ float_retry_after a = Some d
         ∧ delay_of r = d.
Proof.
  destruct r as [a|]; simpl; [|done].
  intros [H1 H2]%andb_prop.
  apply bool_decide_eq_true in H2 as [d Hd].
  exists a, d. simpl. rewrite Hd. split_and!; try done. lia.
Qed.

Lemma check_token_validity_retried r net :
  retried r = true →
  check_token_validity (r :: net) =
    after [Request UsersMe r; Sleep (delay_of r)] (check_token_validity net).
Proof.
  intros (a & d & -> & Hs & Hf & Hd)%retried_inv.
  simpl in *. rewrite Hs, Hf. simpl. by subst.
Qed.

Lemma leave_server_retried r net :
  retried r = true →
  leave_server (r :: net) =
    after [Request LeaveGuild r; Sleep (delay_of r)] (leave_server net).
Proof.
  intros (a & d & -> & Hs & Hf & Hd)%retried_inv.
  simpl in *. rewrite Hs, Hf. simpl. by subst.
Qed.

Lemma check_token_validity_waits limited net :
  Forall (fun r => retried r = true) limited →
  check_token_validity (limited ++ net) =
    after (waits UsersMe limited) (check_token_validity net).
Proof.
  induction 1 as [|r limited Hr _ IH].
  - simpl. by rewrite after_nil.
  - change ((r :: limited) ++ net) with (r :: (limited ++ net)).
    rewrite check_token_validity_retried, IH by done.
    by rewrite after_after.
Qed.

Lemma leave_server_waits limited net :
  Forall (fun r => retried r = true) limited →
  leave_server (limited ++ net) =
    after (waits LeaveGuild limited) (leave_server net).
Proof.
  induction 1 as [|r limited Hr _ IH].
  - simpl. by rewrite after_nil.
  - change ((r :: limited) ++ net) with (r :: (limited ++ net)).
    rewrite leave_server_retried, IH by done.
    by rewrite after_after.
Qed.



(** Every request reads a reply when there is one. *)
Lemma check_token_validity_unread net :
  (length (unread (check_token_validity net)) ≤ pred (length net))%nat.
Proof.
  induction net as [|[a|] net IH]; simpl; [lia| |lia].
  repeat case_match; simpl; lia.
Qed.

Lemma next_reply_unread net :
  (length (next_reply net).2 ≤ pred (length net))%nat.
Proof. destruct net; simpl; lia. Qed.

(** Fuel: more of it changes nothing, and [enough] is enough. *)
Lemma check_server_membership_more fuel fuel' guild net r :
  check_server_membership fuel guild net = Some r →
  (fuel ≤ fuel')%nat →
  check_server_membership fuel' guild net = Some r.
Proof.
  revert fuel' net r.
  induction fuel as [|fuel IH]; intros fuel' net r H Hle; [done|].
  destruct fuel' as [|fuel']; [lia|].
  cbn [check_server_membership] in *.
  destruct (negb (returned (check_token_validity net))); [done|].
  destruct (next_reply (unread (check_token_validity net))) as [[a|] net1];
    [|done].
  repeat case_match; try done.
  destruct (check_server_membership fuel guild net1) as [r1|] eqn:E;
    [|done].
  by rewrite (IH fuel' net1 r1 E) by lia.
Qed.

Lemma check_server_membership_total fuel guild net :
  (length net < fuel)%nat →
  is_Some (check_server_membership fuel guild net).
Proof.
  revert net. induction fuel as [|fuel IH]; intros net Hlen; [lia|].
  cbn [check_server_membership].
  destruct (negb (returned (check_token_validity net))) eqn:Hv; [done|].
  pose proof (check_token_validity_unread net) as H1.
  pose proof (next_reply_unread (unread (check_token_validity net))) as H2.
  destruct (next_reply (unread (check_token_validity net))) as [[a|] net1];
    [|done].
  simpl in H2.
  repeat case_match; try done.
  destruct (IH net1) as [r1 ->]; [|done].
  destruct net as [|x net]; simpl in *; [done|lia].
Qed.





(** The validity check asks [UsersMe] only, and a request of it that
    failed made it answer [False]. *)
Lemma check_token_validity_effects net e r :
  Request e r ∈ effects (check_token_validity net) →
  e = UsersMe ∧ (r = Failed → returned (check_token_validity net) = false).
Proof.
  induction net as [|[a|] net IH]; simpl.
  - intros ?%list_elem_of_singleton. by simplify_eq.
  - repeat case_match; simpl;
      try (intros ?%list_elem_of_singleton; by simplify_eq).
    rewrite !elem_of_cons. intros [?|[?|?]]; simplify_eq; by auto.
  - intros ?%list_elem_of_singleton. by simplify_eq.
Qed.

Lemma check_server_membership_failures fuel guild net r :
  check_server_membership fuel guild net = Some r →
  ((Request GuildMember Failed ∈ effects r
    ∨ Request UserGuilds Failed ∈ effects r) →
   returned r = Membership true false)
  ∧ (Request UsersMe Failed ∈ effects r →
     returned r = Membership false false).
Proof.
  revert net r. induction fuel as [|fuel IH]; intros net r H; [done|].
  cbn [check_server_membership] in H.
  pose proof (check_token_validity_effects net) as Hv.
  destruct (negb (returned (check_token_validity net))) eqn:Hok.
  { simplify_eq/=. split; [|done].
    intros [[??]%Hv| [??]%Hv]; done. }
  apply negb_false_iff in Hok.
  assert (∀ e, Request e Failed ∉ effects (check_token_validity net)) as Hno.
  { intros e [_ Hf]%Hv. rewrite Hf in Hok; done. }
  destruct (next_reply (unread (check_token_validity net))) as [[a|] net1].
  2:{ simplify_eq/=. split; [done|].
      rewrite elem_of_app, list_elem_of_singleton.
      intros [?%Hno|?]; done. }
  repeat case_match; simplify_eq/=;
    rewrite ?elem_of_app, ?list_elem_of_singleton;
    try (split; intros; destruct_or?; simplify_eq;
         try done; by exfalso; eapply Hno).
  destruct (check_server_membership fuel guild net1) as [r1|] eqn:E;
    simplify_eq/=.
  destruct (IH _ _ E) as [IH1 IH2].
  rewrite !elem_of_app, !list_elem_of_singleton.
  split; intros; destruct_or?; simplify_eq; eauto;
    by exfalso; eapply Hno.
Qed.

(** Membership in a list that is written out. *)
Ltac listed :=
  by repeat first [apply list_elem_of_here | apply list_elem_of_further].

Lemma check_server_membership_sound fuel guild net r :
  check_server_membership fuel guild net = Some r →
  returned r ∈ [Membership true true; Membership true false;
                Membership false false].
Proof.
  revert net r. induction fuel as [|fuel IH]; intros net r H; [done|].
  cbn [check_server_membership] in H.
  destruct (negb (returned (check_token_validity net))).
  { simplify_eq/=. listed. }
  destruct (next_reply (unread (check_token_validity net))) as [[a|] net1].
  2:{ simplify_eq/=. listed. }
  repeat case_match; simplify_eq/=; try listed.
  - destruct (check_server_membership fuel guild net1) as [r1|] eqn:E;
      simplify_eq/=.
    by apply (IH _ _ E).
  - unfold guilds_fallback. repeat case_match; listed.
Qed.

(** C9. Every status [check_server_membership] returns, on every
    answer and failure path (the guild-list fallback included), is one
    of valid and in the server, valid and not in the server, or neither:
    in the server implies valid, and invalid yet in the server is never
    returned.  The call returns on every script. *)
Theorem membership_in_server_implies_valid guild net :
  ∃ r, check_server_membership (enough net) guild net = Some r
       ∧ implb (in_server (returned r)) (valid (returned r)) = true
       ∧ returned r ≠ Membership false true
       ∧ ∀ fuel, check_server_membership fuel guild net = None
                 ∨ check_server_membership fuel guild net = Some r.
Proof.
  destruct (check_server_membership_total (enough net) guild net) as [r Hr];
    [unfold enough; lia|].
  exists r. split; [done|].
  pose proof (check_server_membership_sound _ _ _ _ Hr) as Hin.
  split_and!.
  - set_unfold. destruct_or?; try done; by rewrite Hin.
  - set_unfold. destruct_or?; try done; by rewrite Hin.
  - intros fuel.
    destruct (check_server_membership fuel guild net) as [r'|] eqn:E;
      [right|by left].
    destruct (decide (fuel ≤ enough net)%nat).
    + rewrite (check_server_membership_more _ _ _ _ _ E) in Hr by done.
      done.
    + rewrite (check_server_membership_more _ _ _ _ _ Hr) in E by lia.
      done.
Qed.

(** C4, as stated, fails: when the request of the validity check is
    the one that raises, [check_token_validity] answers [False] (line
    74) and the membership check reports the credential invalid (line
    85). *)
Lemma transport_failure_in_validity_check_reports_invalid :
  ¬ (∀ guild net r e,
       check_server_membership (enough net) guild net = Some r →
       Request e Failed ∈ effects r →
       returned r = Membership true false).
Proof.
  intros H.
  specialize (H "1" [Failed] (Ran (Membership false false)
                                  [Request UsersMe Failed] []) UsersMe).
  assert (Membership false false = Membership true false) as E; [|done].
  apply H; [reflexivity|]. by apply list_elem_of_singleton.
Qed.

(** A 429 answer of the validity check whose Retry-After cannot be read
    made it answer [False] (lines 65, 72-74). *)
Lemma check_token_validity_unreadable net a :
  Request UsersMe (Answered a) ∈ effects (check_token_validity net) →
  status a = 429 → float_retry_after a = None →
  returned (check_token_validity net) = false.
Proof.
  intros Hin Hs Hf.
  induction net as [|[b|] net IH]; simpl in *.
  - apply list_elem_of_singleton in Hin. done.
  - destruct (status b =? 200) eqn:E200.
    { apply list_elem_of_singleton in Hin. simplify_eq. lia. }
    destruct (status b =? 401); [done|].
    destruct (status b =? 429); [|done].
    destruct (float_retry_after b) as [d|] eqn:Hb; [|done].
    simpl in *. rewrite !elem_of_cons in Hin.
    destruct Hin as [?|[?|?]]; simplify_eq; auto.
  - apply list_elem_of_singleton in Hin. done.
Qed.

(** Every exception inside a membership check ends it with the status
    its handler returns: that of line 85 when it was raised in the
    validity check, that of line 117 otherwise. *)
Lemma check_server_membership_raises fuel guild net r :
  check_server_membership fuel guild net = Some r →
  (∀ a, Request UsersMe (Answered a) ∈ effects r →
        status a = 429 → float_retry_after a = None →
        returned r = Membership false false)
  ∧ (∀ a, Request GuildMember (Answered a) ∈ effects r →
          status a = 429 → float_retry_after a = None →
          returned r = Membership true false)
  ∧ (∀ g, Request UserGuilds (Answered g) ∈ effects r →
          status g = 200 → unreadable guild (body g) →
          returned r = Membership true false).
Proof.
  revert net r. induction fuel as [|fuel IH]; intros net r H; [done|].
  cbn [check_server_membership] in H.
  pose proof (check_token_validity_effects net) as Hv.
  pose proof (check_token_validity_unreadable net) as Hu.
  destruct (negb (returned (check_token_validity net))) eqn:Hok.
  { simplify_eq/=. split_and!; [done|..]; intros ? [? _]%Hv; done. }
  apply negb_false_iff in Hok. rewrite Hok in Hu.
  assert (∀ e x, Request e x ∈ effects (check_token_validity net) →
                 e = UsersMe
                 ∧ ∀ a, x = Answered a → status a = 429 →
                        float_retry_after a = None → False) as Hno.
  { intros e x Hin. destruct (Hv _ _ Hin) as [-> _]. split; [done|].
    intros a -> Hs Hf. by specialize (Hu _ Hin Hs Hf). }
  clear Hv Hu.
  destruct (next_reply (unread (check_token_validity net))) as [[a|] net1].
  2:{ simplify_eq/=. split_and!; intros b;
        rewrite elem_of_app, list_elem_of_singleton;
        intros [[? Hb]%Hno|?] ? ?; simplify_eq; exfalso; by eapply Hb. }
  destruct (status a =? 200) eqn:E200.
  { simplify_eq/=. split_and!; intros b;
      rewrite elem_of_app, list_elem_of_singleton;
      intros [[? Hb]%Hno|?] ? ?; simplify_eq; try lia;
      exfalso; by eapply Hb. }
  destruct (status a =? 404) eqn:E404.
  { simplify_eq/=. split_and!; intros b;
      rewrite elem_of_app, list_elem_of_singleton;
      intros [[? Hb]%Hno|?] ? ?; simplify_eq; try done;
      exfalso; by eapply Hb. }
  destruct (status a =? 401) eqn:E401.
  { simplify_eq/=. split_and!; intros b;
      rewrite elem_of_app, list_elem_of_singleton;
      intros [[? Hb]%Hno|?] ? ?; simplify_eq; try lia;
      exfalso; by eapply Hb. }
  destruct (status a =? 429) eqn:E429.
  { destruct (float_retry_after a) as [d|] eqn:Hd.
    - destruct (check_server_membership fuel guild net1) as [r1|] eqn:E;
        simplify_eq/=.
      destruct (IH _ _ E) as (IH1 & IH2 & IH3).
      split_and!; intros b;
        rewrite !elem_of_app, !list_elem_of_singleton;
        intros [[[[? Hb]%Hno|?]|?]|?] ? ?; simplify_eq; eauto;
        exfalso; by eapply Hb.
    - simplify_eq/=. split_and!; intros b;
        rewrite elem_of_app, list_elem_of_singleton;
        intros [[? Hb]%Hno|?] ? ?; simplify_eq; try done;
        exfalso; by eapply Hb. }
  destruct (next_reply net1) as [g net2]. simplify_eq/=.
  split_and!; intros b;
    rewrite !elem_of_app, !list_elem_of_singleton;
    intros [[[? Hb]%Hno|?]|?] Hs Hbad; simplify_eq; try lia;
    try (exfalso; by eapply Hb).
  unfold guilds_fallback, unreadable in *.
  destruct (status b =? 200); [|done].
  destruct (body b); [done|]. by rewrite Hbad.
Qed.

(** C4 (amended). A membership check always returns: no exception
    leaves it.  When the request that raises is the membership query or
    the guild-list query of the fallback, it returns valid and not in
    the server, and so it does when the Retry-After of a 429 answer to
    the membership query or the body of the guild list cannot be read;
    when the exception is raised in the validity check (its request
    fails, or the Retry-After of its 429 answer cannot be read), it
    returns invalid and not in the server. *)
Theorem transport_failure_status guild net :
  ∃ r,
    check_server_membership (enough net) guild net = Some r
    ∧ ((Request GuildMember Failed ∈ effects r
        ∨ Request UserGuilds Failed ∈ effects r) →
       returned r = Membership true false)
    ∧ (∀ a, Request GuildMember (Answered a) ∈ effects r →
            status a = 429 → float_retry_after a = None →
            returned r = Membership true false)
    ∧ (∀ g, Request UserGuilds (Answered g) ∈ effects r →
            status g = 200 → unreadable guild (body g) →
            returned r = Membership true false)
    ∧ (Request UsersMe Failed ∈ effects r →
       returned r = Membership false false)
    ∧ (∀ a, Request UsersMe (Answered a) ∈ effects r →
            status a = 429 → float_retry_after a = None →
            returned r = Membership false false).
Proof.
  destruct (check_server_membership_total (enough net) guild net)
    as [r Hr]; [unfold enough; lia|].
  exists r. split; [done|].
  destruct (check_server_membership_failures _ _ _ _ Hr) as [H1 H2].
  destruct (check_server_membership_raises _ _ _ _ Hr) as (H3 & H4 & H5).
  split_and!; done.
Qed.

Lemma transport_failure_status_witness :
  ∃ r,
    check_server_membership 4 "1"
      [Answered (Response 200 NoRetryAfter NotJson);
       Answered (Response 500 NoRetryAfter NotJson);
       Answered (Response 200 NoRetryAfter NotJson)] = Some r
    ∧ Request UserGuilds (Answered (Response 200 NoRetryAfter NotJson))
      ∈ effects r
    ∧ returned r = Membership true false.
Proof.
  destruct (transport_failure_status "1"
              [Answered (Response 200 NoRetryAfter NotJson);
               Answered (Response 500 NoRetryAfter NotJson);
               Answered (Response 200 NoRetryAfter NotJson)])
    as (r & Hr & _ & _ & Hbody & _).
  exists r. split; [exact Hr|].
  vm_compute in Hr. injection Hr as <-.
  assert (Request UserGuilds (Answered (Response 200 NoRetryAfter NotJson))
          ∈ [Request UsersMe (Answered (Response 200 NoRetryAfter NotJson));
             Request GuildMember
               (Answered (Response 500 NoRetryAfter NotJson));
             Request UserGuilds
               (Answered (Response 200 NoRetryAfter NotJson))]) as Hin
    by listed.
  split; [exact Hin|]. by apply (Hbody _ Hin).
Defined.





(** ** The validation pass *)

(** When a session cannot be created. *)
Lemma rsplit_at_none l : rsplit_at l = None ↔ "@"%char ∉ l.
Proof.
  induction l as [|a l IH]; simpl.
  { split; [intros _ []%elem_of_nil|done]. }
  destruct (rsplit_at l) as [[auth host]|].
  - split; [done|]. intros Hn. exfalso.
    assert ("@"%char ∉ l) as Hl by (intros ?; apply Hn; by right).
    by apply IH in Hl.
  - destruct (Ascii.eqb a "@"%char) eqn:E.
    + apply Ascii.eqb_eq in E. subst. split; [done|].
      intros Hn. destruct Hn. left.
    + apply Ascii.eqb_neq in E. split; [|done]. intros _.
      intros [?|?]%elem_of_cons; [done|]. by apply IH.
Qed.

Lemma format_proxy_raises proxy :
  (∀ e, format_proxy proxy = Raised e →
        e = ValueError "not enough values to unpack")
  ∧ (format_proxy proxy = Raised (ValueError "not enough values to unpack")
     ↔ count_colons proxy = 3%nat
       ∧ "@"%char ∉ String.list_ascii_of_string proxy).
Proof.
  unfold format_proxy. case_bool_decide as He.
  { subst. split; [done|]. split; [done|]. by intros [? _]. }
  destruct (count_colons proxy =? 3)%nat eqn:E3.
  - apply Nat.eqb_eq in E3.
    destruct (rsplit_at _) as [[auth host]|] eqn:Er.
    + split; [done|]. split; [done|]. intros [_ Hn%rsplit_at_none].
      congruence.
    + apply rsplit_at_none in Er. split; [by intros e [= <-]|done].
  - apply Nat.eqb_neq in E3.
    destruct (count_colons proxy =? 1)%nat;
      (split; [done|]; split; [done|]; by intros [? _]).
Qed.

Lemma create_client_session_raises proxy e :
  create_client_session proxy = Raised e ↔
  ∃ p, proxy = Some p ∧ count_colons p = 3%nat
       ∧ ("@"%char ∉ String.list_ascii_of_string p)
       ∧ e = ValueError "not enough values to unpack".
Proof.
  destruct proxy as [p|]; simpl.
  2:{ split; [done|]. by intros (? & ? & _). }
  destruct (format_proxy_raises p) as [Honly Hiff].
  case_bool_decide as He.
  { subst. split; [done|]. by intros (? & [= <-] & ? & _). }
  split.
  - intros Hr. pose proof (Honly _ Hr). subst e.
    apply Hiff in Hr as [? ?]. by exists p.
  - intros (? & [= <-] & ? & ? & ->). by apply Hiff.
Qed.

Lemma judged_cons b c tokens v vs :
  judged b (c :: tokens) (v :: vs) =
    if decide (v = b) then c :: judged b tokens vs else judged b tokens vs.
Proof.
  unfold judged. simpl. rewrite filter_cons. simpl.
  by destruct (decide (v = b)).
Qed.

Lemma verdicts_length tokens net : length (verdicts tokens net) = length tokens.
Proof.
  revert net. induction tokens as [|c tokens IH]; intros net; simpl; [done|].
  by rewrite IH.
Qed.

Lemma judged_permutation tokens vs :
  length vs = length tokens →
  judged true tokens vs ++ judged false tokens vs ≡ₚ tokens.
Proof.
  revert vs. induction tokens as [|c tokens IH]; intros [|v vs] Hlen;
    simplify_eq/=; [done|].
  rewrite !judged_cons. destruct v; simpl.
  - by rewrite IH.
  - by rewrite <- Permutation_middle, IH.
Qed.

(** The sessions from position [i] on. *)
Lemma sessions_open_next proxies i n :
  (∀ k p, (k < S n)%nat → proxy_for proxies (i + k) = Some p →
          count_colons p = 3%nat →
          "@"%char ∈ String.list_ascii_of_string p) →
  (∀ e, create_client_session (proxy_for proxies i) ≠ Raised e)
  ∧ (∀ k p, (k < n)%nat → proxy_for proxies (S i + k) = Some p →
            count_colons p = 3%nat →
            "@"%char ∈ String.list_ascii_of_string p).
Proof.
  intros H. split.
  - intros e (p & Hp & H3 & Hn & _)%create_client_session_raises.
    apply Hn, (H 0%nat); [lia| |done]. by rewrite Nat.add_0_r.
  - intros k p Hk Hp. apply (H (S k)); [lia|].
    by rewrite <- Nat.add_succ_comm.
Qed.

(** With sessions that can be created, the loop is one validity check
    per credential. *)
Lemma validate_loop_returned proxies i tokens acc net :
  (∀ k p, (k < length tokens)%nat → proxy_for proxies (i + k) = Some p →
          count_colons p = 3%nat →
          "@"%char ∈ String.list_ascii_of_string p) →
  validate_loop proxies i tokens acc net =
    Ran (Returned
           (Validation
              (valid_tokens acc ++ judged true tokens (verdicts tokens net))
              (invalid_tokens acc ++ judged false tokens (verdicts tokens net))
              (validation_results acc ++ zip tokens.*1 (verdicts tokens net))))
        (checks tokens net) (unchecked tokens net).
Proof.
  revert i acc net.
  induction tokens as [|[nama tok] tokens IH]; intros i acc net Hopen.
  - destruct acc. simpl. unfold judged. simpl. by rewrite !app_nil_r.
  - apply sessions_open_next in Hopen as [Hfirst Hopen].
    cbn [validate_loop verdicts checks unchecked].
    destruct (create_client_session (proxy_for proxies i)) as [u|e] eqn:Ec;
      [|by destruct (Hfirst e)].
    rewrite IH by done. rewrite !judged_cons. unfold after.
    destruct (returned (check_token_validity net)); simpl;
      by rewrite <- ?app_assoc.
Qed.

(** The loop raises nothing but the ValueError of line 32, and returns
    only when every session could be created. *)
Lemma validate_loop_raised proxies i tokens acc net :
  (∀ e, returned (validate_loop proxies i tokens acc net) = Raised e →
        e = ValueError "not enough values to unpack")
  ∧ (∀ v, returned (validate_loop proxies i tokens acc net) = Returned v →
          ∀ k p, (k < length tokens)%nat →
                 proxy_for proxies (i + k) = Some p →
                 count_colons p = 3%nat →
                 "@"%char ∈ String.list_ascii_of_string p).
Proof.
  revert i acc net.
  induction tokens as [|[nama tok] tokens IH]; intros i acc net.
  { split; [done|]. intros; simpl in *; lia. }
  cbn [validate_loop].
  destruct (create_client_session (proxy_for proxies i)) as [u|e] eqn:Ec.
  - rewrite after_returned.
    match goal with
    | |- context [validate_loop proxies (S i) tokens ?acc' ?net'] =>
        destruct (IH (S i) acc' net') as [IH1 IH2]
    end.
    split; [done|]. intros v Hv [|k] p Hk Hp H3.
    + rewrite Nat.add_0_r in Hp.
      destruct (decide ("@"%char ∈ String.list_ascii_of_string p));
        [done|].
      assert (create_client_session (proxy_for proxies i)
              = Raised (ValueError "not enough values to unpack")) as Hr.
      { apply create_client_session_raises. by exists p. }
      congruence.
    + apply (IH2 v Hv k); [simpl in Hk; lia| |done].
      by rewrite Nat.add_succ_comm.
  - simpl. split; [|done]. intros ? [= <-].
    by apply create_client_session_raises in Ec as (_ & _ & _ & _ & ->).
Qed.

Lemma validate_tokens_returned proxies tokens net l :
  returned (validate_tokens proxies tokens net) = Returned l ↔
  sessions_open proxies (length tokens)
  ∧ l = judged true tokens (verdicts tokens net)
        ++ judged false tokens (verdicts tokens net).
Proof.
  unfold validate_tokens. cbn [returned]. split.
  - destruct (returned (validate_loop proxies 0 tokens _ net)) as [v|e] eqn:E;
      [|done].
    intros [= <-].
    destruct (validate_loop_raised proxies 0 tokens (Validation [] [] []) net)
      as [_ Hopen].
    specialize (Hopen _ E).
    split; [exact Hopen|].
    rewrite validate_loop_returned in E by exact Hopen.
    by simplify_eq/=.
  - intros [Hopen ->].
    by rewrite validate_loop_returned by exact Hopen.
Qed.

Lemma validate_tokens_raised proxies tokens net e :
  returned (validate_tokens proxies tokens net) = Raised e →
  e = ValueError "not enough values to unpack".
Proof.
  unfold validate_tokens. cbn [returned].
  destruct (validate_loop_raised proxies 0 tokens (Validation [] [] []) net)
    as [Hraised _].
  destruct (returned (validate_loop proxies 0 tokens _ net)) as [v|e'];
    [done|].
  intros [= <-]. by apply Hraised.
Qed.

(** C10, as stated, fails: the session of line 130 is created outside
    any [try], and a proxy line with three colons and no "@" makes
    [format_proxy] raise at line 32: the pass returns nothing. *)
Lemma unusable_proxy_ends_the_validation_pass :
  ¬ (∀ proxies tokens net,
       ∃ all_tokens,
         returned (validate_tokens proxies tokens net) = Returned all_tokens
         ∧ all_tokens ≡ₚ tokens).
Proof.
  intros H.
  destruct (H ["host:8080:user:secret"] [("A", "a")]
              [Answered (Response 200 NoRetryAfter NotJson)])
    as (all_tokens & Hr & _).
  by vm_compute in Hr.
Qed.

(** C10 (amended). [validate_tokens] returns exactly when none of the
    sessions it creates is given a proxy line with three colons and no
    "@"; otherwise it raises the ValueError of line 32.  When it
    returns, it has made one [check_token_validity] call per
    credential, in input order, on what the calls before left of the
    service, and it returns the input credentials, each exactly once:
    those whose call answered [True] first, those whose call answered
    [False] after them, each group in input order; the table of line
    141 lists them in input order with the answers.  The order
    returned can differ from the input order, and with it the proxy a
    credential is given by its position. *)
Theorem validate_tokens_valid_first proxies tokens net :
  ((∃ all_tokens,
      returned (validate_tokens proxies tokens net) = Returned all_tokens)
   ↔ sessions_open proxies (length tokens))
  ∧ (∀ e, returned (validate_tokens proxies tokens net) = Raised e →
          e = ValueError "not enough values to unpack")
  ∧ (sessions_open proxies (length tokens) →
     returned (validate_tokens proxies tokens net) =
       Returned (judged true tokens (verdicts tokens net)
                 ++ judged false tokens (verdicts tokens net))
     ∧ judged true tokens (verdicts tokens net)
       ++ judged false tokens (verdicts tokens net) ≡ₚ tokens
     ∧ validation_table proxies tokens net =
         Some (zip tokens.*1 (verdicts tokens net))
     ∧ effects (validate_tokens proxies tokens net) = checks tokens net
     ∧ unread (validate_tokens proxies tokens net) = unchecked tokens net)
  ∧ ∃ proxies' tokens' net' all_tokens',
      returned (validate_tokens proxies' tokens' net') = Returned all_tokens'
      ∧ all_tokens' ≠ tokens'
      ∧ session_proxies proxies' all_tokens'
        ≠ session_proxies proxies' tokens'.
Proof.
  split_and!.
  - split.
    + intros [l Hl]. by apply validate_tokens_returned in Hl as [? _].
    + intros Hopen. eexists. by apply validate_tokens_returned.
  - intros e. apply validate_tokens_raised.
  - intros Hopen. split_and!.
    + by apply validate_tokens_returned.
    + apply judged_permutation, verdicts_length.
    + unfold validation_table.
      by rewrite validate_loop_returned by exact Hopen.
    + unfold validate_tokens.
      by rewrite validate_loop_returned by exact Hopen.
    + unfold validate_tokens.
      by rewrite validate_loop_returned by exact Hopen.
  - exists ["p:1"; "q:2"], [("A", "a"); ("B", "b")],
      [Answered (Response 401 NoRetryAfter NotJson);
       Answered (Response 200 NoRetryAfter NotJson)],
      [("B", "b"); ("A", "a")].
    split_and!; [|done|by vm_compute].
    apply validate_tokens_returned. split; [|by vm_compute].
    intros [|[|k]] p Hk Hp H3; [| |simpl in Hk; lia];
      vm_compute in Hp; simplify_eq; by vm_compute in H3.
Qed.

Lemma validate_tokens_valid_first_witness :
  sessions_open ["host:8080"] 2
  ∧ returned (validate_tokens ["host:8080"] [("A", "a"); ("B", "b")]
                [Answered (Response 401 NoRetryAfter NotJson);
                 Answered (Response 200 NoRetryAfter NotJson)])
    = Returned [("B", "b"); ("A", "a")]
  ∧ effects (validate_tokens ["host:8080"] [("A", "a"); ("B", "b")]
               [Answered (Response 401 NoRetryAfter NotJson);
                Answered (Response 200 NoRetryAfter NotJson)])
    = [Request UsersMe (Answered (Response 401 NoRetryAfter NotJson));
       Request UsersMe (Answered (Response 200 NoRetryAfter NotJson))].
Proof.
  assert (sessions_open ["host:8080"] 2) as Hopen.
  { intros [|[|k]] p Hk Hp H3; [| |simpl in Hk; lia];
      vm_compute in Hp; simplify_eq; by vm_compute in H3. }
  split; [exact Hopen|].
  destruct (validate_tokens_valid_first ["host:8080"] [("A", "a"); ("B", "b")]
              [Answered (Response 401 NoRetryAfter NotJson);
               Answered (Response 200 NoRetryAfter NotJson)])
    as (_ & _ & H & _).
  destruct (H Hopen) as (H1 & _ & _ & H4 & _).
  split; [rewrite H1|rewrite H4]; reflexivity.
Defined.

(** ** The process *)

Lemma main_escaped env e :
  escaped (main env) = Some e → e = KeyboardInterrupt.
Proof.
  unfold main. destruct (main_body env) as [started [e'|]]; [|done].
  destruct (is_Exception e') eqn:E; simpl; [done|].
  intros ?; simplify_eq. by destruct e.
Qed.

Lemma main_started env : monitoring_started (main env) = (main_body env).1.
Proof.
  unfold main. destruct (main_body env) as [started [e|]]; [|done].
  by destruct (is_Exception e).
Qed.

Lemma main_printed env :
  (main_body env).2 ≠ None → (main_body env).2 ≠ Some KeyboardInterrupt →
  is_Some (printed_error (main env)) ∧ escaped (main env) = None.
Proof.
  unfold main. destruct (main_body env) as [started [e|]]; simpl; [|done].
  intros _ He. destruct e; simpl; by eauto.
Qed.

Lemma unpack_length tokens credentials :
  unpack tokens = (credentials, true) → length credentials = length tokens.
Proof.
  revert credentials.
  induction tokens as [|fields tokens IH]; intros credentials H;
    simplify_eq/=; [done|].
  destruct fields as [|nama [|tok [|]]]; simplify_eq/=.
  destruct (unpack tokens) as [l all]. simplify_eq/=.
  by rewrite (IH l).
Qed.

Lemma validate_tokens_length proxies tokens net all_tokens :
  returned (validate_tokens proxies tokens net) = Returned all_tokens →
  length all_tokens = length tokens.
Proof.
  intros [_ ->]%validate_tokens_returned.
  by rewrite (judged_permutation tokens (verdicts tokens net))
    by apply verdicts_length.
Qed.

(** The sessions of the pollers are those of the validation pass over
    again. *)
Lemma open_sessions_none proxies i tokens :
  open_sessions proxies i tokens = None ↔
  ∀ k p, (k < length tokens)%nat → proxy_for proxies (i + k) = Some p →
         count_colons p = 3%nat →
         "@"%char ∈ String.list_ascii_of_string p.
Proof.
  revert i. induction tokens as [|c tokens IH]; intros i.
  { simpl. split; [|done]. intros; lia. }
  cbn [open_sessions].
  destruct (create_client_session (proxy_for proxies i)) as [u|e] eqn:Ec.
  - rewrite IH. split.
    + intros Hp [|k] p Hk Hpk H3.
      * rewrite Nat.add_0_r in Hpk.
        destruct (decide ("@"%char ∈ String.list_ascii_of_string p));
          [done|].
        assert (create_client_session (proxy_for proxies i)
                = Raised (ValueError "not enough values to unpack")) as Hr.
        { apply create_client_session_raises. by exists p. }
        congruence.
      * apply (Hp k); [simpl in Hk; lia| |done].
        by rewrite Nat.add_succ_comm.
    + intros Hp. by apply sessions_open_next in Hp as [_ ?].
  - split; [done|]. intros Hp.
    apply sessions_open_next in Hp as [Hfirst _]. by destruct (Hfirst e).
Qed.

(** What [main_body] gives, branch by branch. *)
Lemma main_body_cases env :
  (main_body env).1 = false ∧ (main_body env).2 ≠ None
  ∧ (main_body env).2 ≠ Some KeyboardInterrupt
  ∨ (main_body env).1 = false ∧ (main_body env).2 = Some KeyboardInterrupt
    ∧ operator env = CtrlC
    ∧ (∃ lines, token_txt env = Some lines ∧ read_tokens lines ≠ [])
  ∨ (main_body env).1 = true
    ∧ (main_body env).2 ≠ Some KeyboardInterrupt
    ∧ ∃ lines line,
        token_txt env = Some lines
        ∧ read_tokens lines ≠ []
        ∧ (unpack (read_tokens lines)).2 = true
        ∧ sessions_open (load_proxies (proxy_txt env))
            (length (read_tokens lines))
        ∧ operator env = Typed line
        ∧ strip line ≠ ""
        ∧ isdigit (unicode_digits env) (strip line) = true.
Proof.
  unfold main_body.
  destruct (token_txt env) as [lines|] eqn:Ht; [|by left].
  destruct (read_tokens lines) as [|fields tokens] eqn:Hr; [by left|].
  rewrite <- Hr.
  pose proof (unpack_length (read_tokens lines)) as Hlen.
  destruct (unpack (read_tokens lines)) as [credentials unpacked] eqn:Hu.
  destruct (returned (validate_tokens _ credentials (network env)))
    as [all_tokens|e] eqn:Hv.
  2:{ left. cbn [fst snd]. split_and!; [done|done|].
      pose proof (validate_tokens_raised _ _ _ _ Hv) as ->.
      done. }
  destruct unpacked; cbn [negb]; [|by left].
  specialize (Hlen _ eq_refl).
  pose proof (validate_tokens_length _ _ _ _ Hv) as Hlen'.
  apply validate_tokens_returned in Hv as [Hopen _].
  rewrite Hlen in Hopen, Hlen'.
  destruct all_tokens as [|c all_tokens].
  { rewrite Hr in Hlen'. done. }
  destruct (operator env) as [line|] eqn:Ho.
  2:{ right. left. split_and!; try done. exists lines. by rewrite Hr. }
  case_bool_decide as He; cbn [orb]; [by left|].
  destruct (isdigit (unicode_digits env) (strip line)) eqn:Hd;
    cbn [negb]; [|by left].
  right. right. cbn [fst snd]. split; [done|].
  assert (open_sessions (load_proxies (proxy_txt env)) 0 (c :: all_tokens)
          = None) as ->.
  { apply open_sessions_none. intros k p Hk. apply Hopen. lia. }
  split; [by destruct (session env)|].
  exists lines, line. rewrite Hu. split_and!; try done.
  by rewrite Hr.
Qed.

(** C8, as stated, fails: the ValueError of lines 309 and 326 is caught
    at line 424, [main] returns, and the interpreter exits with 0. *)
Lemma configuration_error_exit_code_is_zero :
  ¬ (∀ env, no_credentials env ∨ bad_resource_id env → exit_code env ≠ 0).
Proof.
  intros H.
  apply (H (Environment (Some []) None [] (Typed "1") PollersReturned
              (fun _ => false)));
    [by left|reflexivity].
Qed.

(** C8 (amended). Every run ends with exit code 0: no path of the file
    sets another one.  A run with no credentials (token.txt empty or
    unreadable) or with an empty or non-numeric server id prints the
    error and returns from [main] before monitoring starts. *)
Theorem exit_code_always_zero env :
  exit_code env = 0
  ∧ (no_credentials env ∨ bad_resource_id env →
     monitoring_started (main env) = false
     ∧ is_Some (printed_error (main env))
     ∧ escaped (main env) = None).
Proof.
  split.
  - unfold exit_code.
    destruct (escaped (main env)) as [e|] eqn:E; [|done].
    by rewrite (main_escaped _ _ E).
  - intros Hbad. rewrite main_started.
    destruct (main_body_cases env)
      as [(Hs & Hn & Hk)|[(_ & _ & Ho & lines & Ht & Hr)|(_ & _ & Hrun)]].
    + split; [done|]. by apply main_printed.
    + exfalso. destruct Hbad as [Hbad|Hbad].
      * unfold no_credentials in Hbad. rewrite Ht in Hbad. done.
      * unfold bad_resource_id in Hbad. by rewrite Ho in Hbad.
    + exfalso.
      destruct Hrun as (lines & line & Ht & Hr & _ & _ & Ho & He & Hd).
      destruct Hbad as [Hbad|Hbad].
      * unfold no_credentials in Hbad. rewrite Ht in Hbad. done.
      * unfold bad_resource_id in Hbad. rewrite Ho in Hbad.
        destruct Hbad; congruence.
Qed.

Lemma exit_code_always_zero_witness :
  exit_code (Environment (Some ["a:x"]) None
               [Answered (Response 200 NoRetryAfter NotJson)]
               (Typed "guild") PollersReturned (fun _ => false)) = 0
  ∧ printed_error
      (main (Environment (Some ["a:x"]) None
               [Answered (Response 200 NoRetryAfter NotJson)]
               (Typed "guild") PollersReturned (fun _ => false)))
    = Some (ValueError "Server ID harus angka dan tidak boleh kosong!").
Proof.
  destruct (exit_code_always_zero
              (Environment (Some ["a:x"]) None
                 [Answered (Response 200 NoRetryAfter NotJson)]
                 (Typed "guild") PollersReturned (fun _ => false)))
    as [H1 H2].
  split; [exact H1|].
  destruct H2 as (_ & _ & _); [right; right; reflexivity|].
  reflexivity.
Defined.

(** ** The pollers *)

Lemma resume_resumes s i p w p' active seen :
  resume s i p w = Some (p', active, seen) →
  resumes s i p p' active seen.
Proof.
  unfold resume, display. intros H.
  destruct (pc p) eqn:Hpc, w; try done.
  - destruct (initially_in_server _ _) eqn:Hin; simplify_eq/=.
    + by apply resumes_start.
    + by apply resumes_skip.
  - destruct (check_server_membership _ _ _) as [r|]; [|done].
    cbn [mbind option_bind] in H.
    case_bool_decide as Hne.
    + destruct (valid (returned r)) eqn:Hv; cbn [negb] in H.
      2:{ simplify_eq. by apply resumes_invalid. }
      destruct (in_server (returned r)) eqn:Hs; cbn [negb andb] in H.
      { simplify_eq. apply resumes_changed; auto. }
      destruct (get_in_server (last_status p)) eqn:Hl.
      2:{ simplify_eq. apply resumes_changed; auto. }
      destruct (leave_targets _ _ _) eqn:Ht; simplify_eq.
      * by apply (resumes_ban_alone s i p (returned r)).
      * rewrite <- Ht. apply (resumes_ban s i p (returned r)); try done.
        by rewrite Ht.
    + simplify_eq. apply resumes_same; [done|].
      by destruct (decide (Some (returned r) = last_status p)).
  - case_bool_decide; simplify_eq.
    apply resumes_left with (leave_tasks := leave_tasks); [done|].
    by rewrite length_map.
  - simplify_eq. by apply resumes_wake.
Qed.

Lemma step_resumes s it s' :
  step s it = Some s' →
  ∃ p p' seen,
    pollers s !! it.1 = Some p
    ∧ resumes s it.1 p p' (monitoring_active s') seen
    ∧ initial_status s' = initial_status s
    ∧ all_tokens s' = all_tokens s
    ∧ guild_id s' = guild_id s
    ∧ pollers s' = <[it.1 := p']> (pollers s)
    ∧ trace s' = trace s ++ seen.
Proof.
  unfold step. intros H.
  destruct (pollers s !! it.1) as [p|] eqn:Hp; simplify_eq/=.
  destruct (resume s it.1 p it.2) as [[[p' active] seen]|] eqn:Hr;
    simplify_eq/=.
  exists p, p', seen. split_and!; try done.
  by apply resume_resumes in Hr.
Qed.

(** What holds at the start and is kept by every step holds all along
    every run. *)
Lemma run_invariant (P : monitor → Prop) s0 :
  P s0 →
  (∀ s it s', P s → step s it = Some s' → P s') →
  ∀ schedule s, run s0 schedule = Some s → P s.
Proof.
  intros H0 Hstep schedule. revert s0 H0.
  induction schedule as [|it schedule IH]; intros s0 H0 s Hrun;
    simplify_eq/=; [done|].
  destruct (step s0 it) as [s1|] eqn:E; simplify_eq/=.
  eapply IH; [|done]. by eapply Hstep.
Qed.

Lemma record_results_nama results tokens p i :
  nama_token (record_results i results tokens p) = nama_token p.
Proof.
  revert i p. induction results as [|[] results IH]; intros i p; simpl;
    [done|by rewrite IH..].
Qed.

Lemma loop_top_nama active p : nama_token (loop_top active p) = nama_token p.
Proof. done. Qed.

Lemma resumes_nama s i p p' active seen :
  resumes s i p p' active seen → nama_token p' = nama_token p.
Proof. destruct 1; simpl; rewrite ?record_results_nama; done. Qed.

(** Only the poller that runs is observed. *)
Lemma resumes_observer s i p p' active seen o :
  resumes s i p p' active seen → o ∈ seen → observer o = i.
Proof.
  destruct 1; rewrite ?elem_of_app, ?list_elem_of_fmap; set_unfold;
    intros Ho; destruct_or?; destruct_and?; simplify_eq; try done.
  by destruct Ho as (? & -> & ?).
Qed.


(** The shared arguments and the labels never change. *)
Lemma run_static tokens initial guild schedule s :
  run (start_monitoring tokens initial guild) schedule = Some s →
  initial_status s = initial ∧ all_tokens s = tokens ∧ guild_id s = guild
  ∧ nama_token <$> pollers s = tokens.*1.
Proof.
  apply (run_invariant
           (fun s => initial_status s = initial ∧ all_tokens s = tokens
                     ∧ guild_id s = guild
                     ∧ nama_token <$> pollers s = tokens.*1)).
  - split_and!; try done. simpl. by rewrite <- list_fmap_compose.
  - clear. intros s it s' (Hi & Ht & Hg & Hn) Hstep.
    apply step_resumes in Hstep
      as (p & p' & seen & Hp & Hr & -> & -> & -> & -> & _).
    split_and!; try done.
    rewrite list_fmap_insert, (resumes_nama _ _ _ _ _ _ Hr).
    rewrite list_insert_id; [done|].
    by rewrite list_lookup_fmap, Hp.
Qed.

Lemma poller_label (tokens : list credential) (ps : list poller) i p :
  nama_token <$> ps = tokens.*1 → ps !! i = Some p →
  tokens.*1 !! i = Some (nama_token p).
Proof. intros <- Hp. by rewrite list_lookup_fmap, Hp. Qed.

(** *** Credentials that were not in the server at the start *)

Lemma skipped_all_along tokens initial guild schedule s :
  run (start_monitoring tokens initial guild) schedule = Some s →
  initial_status s = initial
  ∧ ∀ i p, pollers s !! i = Some p →
           initially_in_server initial (nama_token p) = false →
           (pc p = NotStarted ∨ pc p = Skipped)
           ∧ ∀ o, o ∈ trace s → observer o ≠ i.
Proof.
  apply (run_invariant
           (fun s => initial_status s = initial
                     ∧ ∀ i p, pollers s !! i = Some p →
                         initially_in_server initial (nama_token p) = false →
                         (pc p = NotStarted ∨ pc p = Skipped)
                         ∧ ∀ o, o ∈ trace s → observer o ≠ i)).
  - split; [done|]. simpl. intros i p Hp _. split; [|set_solver].
    change (map ?f tokens) with (f <$> tokens) in Hp.
    apply list_lookup_fmap_Some in Hp as (c & -> & _). by left.
  - clear. intros s it s' [Hi IH] Hstep.
    apply step_resumes in Hstep
      as (p & p' & seen & Hp & Hr & Hi' & _ & _ & Hps & Htr).
    split; [congruence|]. intros j q Hq Hout.
    rewrite Hps in Hq. rewrite Htr.
    apply list_lookup_insert_Some in Hq as [(<- & <- & _)|[Hne Hq]].
    + rewrite (resumes_nama _ _ _ _ _ _ Hr) in Hout.
      destruct (IH _ _ Hp Hout) as [Hpc Hquiet].
      destruct Hr; try (destruct Hpc; congruence).
      split; [by right|]. by rewrite app_nil_r.
    + destruct (IH _ _ Hq Hout) as [Hpc Hquiet].
      split; [done|]. intros o [?|Ho]%elem_of_app; [by apply Hquiet|].
      by rewrite (resumes_observer _ _ _ _ _ _ _ Hr Ho).
Qed.

(** C6. A poller whose credential was not in the server at the start
    returns the first time it runs, at line 182: it never stands
    anywhere but before its start or at that return, nothing is ever
    observed of it (no membership check, no leave call, no display),
    and its first run leaves the flag and the observations as they
    were. *)
Theorem absent_credentials_are_never_polled
    tokens initial guild schedule s i p :
  run (start_monitoring tokens initial guild) schedule = Some s →
  pollers s !! i = Some p →
  initially_in_server initial (nama_token p) = false →
  (pc p = NotStarted ∨ pc p = Skipped)
  ∧ (∀ o, o ∈ trace s → observer o ≠ i)
  ∧ (pc p = NotStarted →
     step s (i, Start) =
       Some (Monitor (monitoring_active s) (initial_status s) (all_tokens s)
               (guild_id s) (<[i := with_pc Skipped p]> (pollers s))
               (trace s))).
Proof.
  intros Hrun Hp Hout.
  destruct (skipped_all_along _ _ _ _ _ Hrun) as [Hi IH].
  destruct (IH _ _ Hp Hout) as [Hpc Hquiet].
  split_and!; [done|done|].
  intros Hstart. unfold step. simpl. rewrite Hp. simpl.
  unfold resume. rewrite Hstart, Hi, Hout. simpl.
  by rewrite app_nil_r.
Qed.

Lemma absent_credentials_are_never_polled_witness :
  ∃ s p,
    run (start_monitoring [("A", "a"); ("C", "c")]
           {["A" := Membership true true; "C" := Membership true false]} "1")
        [(1%nat, Start); (0%nat, Start);
         (0%nat, MembershipDone [Answered (Response 200 NoRetryAfter NotJson);
                                 Answered (Response 200 NoRetryAfter NotJson)])]
      = Some s
    ∧ pollers s !! 1%nat = Some p
    ∧ pc p = Skipped
    ∧ ∀ o, o ∈ trace s → observer o ≠ 1%nat.
Proof.
  eexists _, _. split; [vm_compute; reflexivity|].
  split; [reflexivity|]. split; [reflexivity|].
  eapply (absent_credentials_are_never_polled
            [("A", "a"); ("C", "c")]
            {["A" := Membership true true; "C" := Membership true false]} "1"
            [(1%nat, Start); (0%nat, Start);
             (0%nat, MembershipDone
                       [Answered (Response 200 NoRetryAfter NotJson);
                        Answered (Response 200 NoRetryAfter NotJson)])]).
  - vm_compute. reflexivity.
  - reflexivity.
  - vm_compute. reflexivity.
Defined.

(** *** The dicts of a poller are its own *)

Lemma status_display_own_notes initial tokens p status row :
  own_notes_only p →
  row ∈ status_display initial tokens p status →
  row_status row ≠ BerhasilKeluar ∧ row_status row ≠ ProsesKeluar
  ∧ (row_message row ≠ "" →
     row_message row = "Token tidak valid" ∧ row_nama row = nama_token p).
Proof.
  intros [Hexit Hnotes] Hrow. unfold status_display in Hrow.
  change (map ?f tokens) with (f <$> tokens) in Hrow.
  apply list_elem_of_fmap in Hrow as (c & -> & _). simpl.
  rewrite Hexit, lookup_empty. simpl.
  destruct (status_messages p !! c.1) as [m|] eqn:Hm; simpl.
  - destruct (Hnotes _ _ Hm) as [-> ->].
    rewrite bool_decide_eq_true_2 by done.
    unfold get_status_text. split_and!; [by repeat case_match..|done].
  - unfold get_status_text. split_and!; [by repeat case_match..|done].
Qed.

Lemma own_notes_with_pc c p : own_notes_only p → own_notes_only (with_pc c p).
Proof. done. Qed.

Lemma own_notes_with_last_status status p :
  own_notes_only p → own_notes_only (with_last_status status p).
Proof. done. Qed.

Lemma own_notes_invalid status p :
  own_notes_only p →
  own_notes_only
    (with_last_status status
       (with_message (nama_token p) "Token tidak valid" p)).
Proof.
  intros [Hexit Hnotes]. split; [done|]. simpl. intros n m.
  rewrite lookup_insert. case_decide; [|by apply Hnotes].
  intros ?; by simplify_eq.
Qed.

Lemma display_all_along tokens initial guild schedule s :
  run (start_monitoring tokens initial guild) schedule = Some s →
  nama_token <$> pollers s = tokens.*1
  ∧ (∀ i p, pollers s !! i = Some p → polling (pc p) = true →
            own_notes_only p)
  ∧ (∀ i rows row,
       Displayed i rows ∈ trace s → row ∈ rows →
       row_status row ≠ BerhasilKeluar ∧ row_status row ≠ ProsesKeluar
       ∧ (row_message row ≠ "" →
          row_message row = "Token tidak valid"
          ∧ tokens.*1 !! i = Some (row_nama row))).
Proof.
  apply (run_invariant
           (fun s =>
              nama_token <$> pollers s = tokens.*1
              ∧ (∀ i p, pollers s !! i = Some p → polling (pc p) = true →
                        own_notes_only p)
              ∧ (∀ i rows row,
                   Displayed i rows ∈ trace s → row ∈ rows →
                   row_status row ≠ BerhasilKeluar
                   ∧ row_status row ≠ ProsesKeluar
                   ∧ (row_message row ≠ "" →
                      row_message row = "Token tidak valid"
                      ∧ tokens.*1 !! i = Some (row_nama row))))).
  - split_and!.
    + simpl. by rewrite <- list_fmap_compose.
    + simpl. intros i p Hp _.
      change (map ?f tokens) with (f <$> tokens) in Hp.
      by apply list_lookup_fmap_Some in Hp as (c & -> & _).
    + simpl. set_solver.
  - clear. intros s it s' (Hn & Hown & Hrows) Hstep.
    pose proof Hstep as Hstep'.
    apply step_resumes in Hstep
      as (p & p' & seen & Hp & Hr & _ & _ & _ & Hps & Htr).
    pose proof (poller_label _ _ _ _ Hn Hp) as Hlabel.
    assert (polling (pc p) = true → own_notes_only p) as Hp_own
      by (by apply (Hown it.1)).
    split_and!.
    + rewrite Hps, list_fmap_insert, (resumes_nama _ _ _ _ _ _ Hr).
      rewrite list_insert_id; [done|]. by rewrite list_lookup_fmap, Hp.
    + intros j q Hq Hpolling. rewrite Hps in Hq.
      apply list_lookup_insert_Some in Hq as [(<- & <- & _)|[Hne Hq]];
        [|by eapply Hown].
      destruct Hr; simpl in Hpolling; try done.
      * apply own_notes_with_pc, Hp_own. by rewrite H.
      * apply own_notes_with_pc, own_notes_invalid, Hp_own. by rewrite H.
      * apply own_notes_with_pc, own_notes_with_last_status, Hp_own.
        by rewrite H.
      * apply own_notes_with_pc, Hp_own. by rewrite H.
    + intros j rows row Hd Hrow. rewrite Htr in Hd.
      apply elem_of_app in Hd as [Hd|Hd]; [by eapply Hrows|].
      pose proof (resumes_observer _ _ _ _ _ _ _ Hr Hd) as Hj.
      simpl in Hj. subst j.
      destruct Hr; set_unfold; destruct_or?; simplify_eq; try done;
        try (by destruct Hd as (? & ? & ?)).
      all: assert (own_notes_only p) as Hown_p
        by (apply Hp_own;
            match goal with Hpc : pc _ = _ |- _ => by rewrite Hpc end).
      all: match goal with
           | Hrow : _ ∈ status_display _ _ ?q _ |- _ =>
               assert (own_notes_only q) as Hq
                 by (first [ exact Hown_p
                           | by apply own_notes_invalid
                           | by apply own_notes_with_last_status ]);
               destruct (status_display_own_notes _ _ _ _ _ Hq Hrow)
                 as (? & ? & Hm)
           end.
      all: split_and!; try done; intros [-> ->]%Hm; done.
Qed.

(** C7 does not hold of the code.  The display of lines 263-279 reads
    [status_messages] and [exit_success] for every credential, and
    [get_status_text] has a text for a credential that has left and one
    for a credential that is leaving; but both dicts are created by
    each call of [monitor_token] (lines 185-186), and the poller that
    fills them in its ban branch leaves the loop at line 254, before
    line 263.  Poller 1 (A) detects the ban, makes B leave and notes
    it; the table poller 0 (B) prints afterwards shows A and B in the
    server, without a message. *)
Theorem fan_out_notes_reach_no_display :
  ∃ s p,
    run (start_monitoring [("B", "b"); ("A", "a")]
           {["A" := Membership true true; "B" := Membership true true]} "1")
        [(0%nat, Start); (1%nat, Start);
         (1%nat, MembershipDone
                   [Answered (Response 200 NoRetryAfter NotJson);
                    Answered (Response 404 NoRetryAfter NotJson)]);
         (1%nat, LeavesDone [[Answered (Response 204 NoRetryAfter NotJson)]]);
         (0%nat, MembershipDone
                   [Answered (Response 200 NoRetryAfter NotJson);
                    Answered (Response 200 NoRetryAfter NotJson)])]
      = Some s
    ∧ pollers s !! 1%nat = Some p
    ∧ status_messages p !! "A" = Some "Banned/Kicked dari server"
    ∧ status_messages p !! "B" = Some "Berhasil keluar dari server"
    ∧ exit_success p !! "B" = Some true
    ∧ trace s =
        [Checked 1 (Some (Membership true true)) (Membership true false);
         BanDetected 1; LeaveCalled 1 "B" true; Latched 1;
         Checked 0 (Some (Membership true true)) (Membership true true);
         Displayed 0 [Row "B" DiServer ""; Row "A" DiServer ""]].
Proof.
  eexists _, _. split; [vm_compute; reflexivity|].
  split; [reflexivity|]. split_and!; by vm_compute.
Qed.

(** C7, as stated, fails on that run: what the triggering poller has
    written is not in the table another poller shows afterwards. *)
Lemma fan_out_notes_are_not_shared :
  ¬ (∀ tokens initial guild schedule s d p pre post j rows n m,
       run (start_monitoring tokens initial guild) schedule = Some s →
       trace s = pre ++ Latched d :: post →
       pollers s !! d = Some p →
       status_messages p !! n = Some m →
       j ≠ d →
       Displayed j rows ∈ post →
       ∃ row, row ∈ rows ∧ row_nama row = n ∧ row_message row = m).
Proof.
  intros H.
  pose (ok := fun code => Answered (Response code NoRetryAfter NotJson)).
  pose (schedule :=
          [(0%nat, Start); (1%nat, Start);
           (1%nat, MembershipDone [ok 200; ok 404]);
           (1%nat, LeavesDone [[ok 204]]);
           (0%nat, MembershipDone [ok 200; ok 200])]).
  pose (initial := ({["A" := Membership true true;
                      "B" := Membership true true]}
                    : gmap string membership)).
  destruct (run (start_monitoring [("B", "b"); ("A", "a")] initial "1")
              schedule) as [s|] eqn:Hrun; [|by vm_compute in Hrun].
  pose proof Hrun as Hrun'. vm_compute in Hrun'. injection Hrun' as <-.
  edestruct H with
    (d := 1%nat) (j := 0%nat) (n := "B") (m := "Berhasil keluar dari server")
    (pre := [Checked 1 (Some (Membership true true)) (Membership true false);
             BanDetected 1; LeaveCalled 1 "B" true])
    as (row & Hrow & Hn & Hm).
  - exact Hrun.
  - reflexivity.
  - reflexivity.
  - by vm_compute.
  - done.
  - apply list_elem_of_further, list_elem_of_here.
  - set_unfold. destruct_or?; by simplify_eq.
Qed.

(** X25. A poller that can still display holds no recorded exit and
    no message but its own "Token tidak valid"; so no table a poller
    prints ever shows a credential as having left ("Berhasil Keluar")
    or as leaving ("Proses Keluar"), and none carries a message except
    that one, on the row of the poller itself: from the display of
    lines 263-279 the branches of lines 211-212 and 216-217 are never
    taken. *)
Theorem notes_stay_with_their_poller tokens initial guild schedule s :
  run (start_monitoring tokens initial guild) schedule = Some s →
  (∀ i p, pollers s !! i = Some p → polling (pc p) = true →
          own_notes_only p)
  ∧ (∀ i rows row,
       Displayed i rows ∈ trace s → row ∈ rows →
       row_status row ≠ BerhasilKeluar ∧ row_status row ≠ ProsesKeluar
       ∧ (row_message row ≠ "" →
          row_message row = "Token tidak valid"
          ∧ tokens.*1 !! i = Some (row_nama row))).
Proof. intros Hrun. by apply display_all_along in Hrun as (_ & ? & ?). Qed.

Lemma notes_stay_with_their_poller_witness :
  ∃ s p,
    run (start_monitoring [("B", "b"); ("A", "a")]
           {["A" := Membership true true; "B" := Membership true true]} "1")
        [(0%nat, Start); (1%nat, Start);
         (1%nat, MembershipDone
                   [Answered (Response 200 NoRetryAfter NotJson);
                    Answered (Response 404 NoRetryAfter NotJson)]);
         (1%nat, LeavesDone [[Answered (Response 204 NoRetryAfter NotJson)]]);
         (0%nat, MembershipDone
                   [Answered (Response 200 NoRetryAfter NotJson);
                    Answered (Response 200 NoRetryAfter NotJson)])]
      = Some s
    ∧ pollers s !! 0%nat = Some p
    ∧ own_notes_only p.
Proof.
  eexists _, _. split; [vm_compute; reflexivity|].
  split; [reflexivity|].
  refine (proj1 (notes_stay_with_their_poller
            [("B", "b"); ("A", "a")]
            {["A" := Membership true true; "B" := Membership true true]} "1"
            [(0%nat, Start); (1%nat, Start);
             (1%nat, MembershipDone
                       [Answered (Response 200 NoRetryAfter NotJson);
                        Answered (Response 404 NoRetryAfter NotJson)]);
             (1%nat, LeavesDone
                       [[Answered (Response 204 NoRetryAfter NotJson)]]);
             (0%nat, MembershipDone
                       [Answered (Response 200 NoRetryAfter NotJson);
                        Answered (Response 200 NoRetryAfter NotJson)])]
            _ _) 0%nat _ _ _).
  - vm_compute. reflexivity.
  - reflexivity.
  - reflexivity.
Defined.

(** *** What the fan-out records *)

(** C1 does not hold of the code.  Line 246 files result [i] of the
    gathered leave calls under the [i]-th label of [all_tokens], though
    the calls were made for the other credentials that started in the
    server only.  With A and B in the server and A banned, the one
    leave call is made for B and succeeds, and [exit_success] gets A;
    with C (never in the server) listed first, it gets C. *)
Theorem exit_success_filed_by_position :
  (∃ s,
     run (start_monitoring [("A", "a"); ("B", "b")]
            {["A" := Membership true true; "B" := Membership true true]} "1")
         [(0%nat, Start); (1%nat, Start);
          (0%nat, MembershipDone
                    [Answered (Response 200 NoRetryAfter NotJson);
                     Answered (Response 404 NoRetryAfter NotJson)]);
          (0%nat, LeavesDone [[Answered (Response 204 NoRetryAfter NotJson)]])]
       = Some s
     ∧ leave_calls "A" (trace s) = 0%nat
     ∧ leave_calls "B" (trace s) = 1%nat
     ∧ all_exit_success s !! "A" = Some true
     ∧ all_exit_success s !! "B" = None)
  ∧ (∃ s,
       run (start_monitoring [("C", "c"); ("A", "a"); ("B", "b")]
              {["A" := Membership true true; "B" := Membership true true;
                "C" := Membership true false]} "1")
           [(0%nat, Start); (1%nat, Start); (2%nat, Start);
            (1%nat, MembershipDone
                      [Answered (Response 200 NoRetryAfter NotJson);
                       Answered (Response 404 NoRetryAfter NotJson)]);
            (1%nat, LeavesDone
                      [[Answered (Response 204 NoRetryAfter NotJson)]])]
         = Some s
       ∧ leave_calls "C" (trace s) = 0%nat
       ∧ leave_calls "B" (trace s) = 1%nat
       ∧ all_exit_success s !! "C" = Some true
       ∧ all_exit_success s !! "B" = None).
Proof.
  split; eexists; (split; [vm_compute; reflexivity|]);
    split_and!; by vm_compute.
Qed.

(** *** The flag and the leave calls *)


Lemma existsb_none {A} (f : A → bool) l :
  (∀ x, x ∈ l → f x = false) → existsb f l = false.
Proof.
  induction l as [|x l IH]; intros H; simpl; [done|].
  rewrite H by left. simpl. apply IH. intros y Hy. apply H. by right.
Qed.


(** The flag after a step: still what it was, unless line 253 ran. *)
Lemma resumes_flag s i p p' active seen :
  resumes s i p p' active seen →
  active = monitoring_active s && negb (existsb is_latch seen).
Proof.
  destruct 1; simpl; rewrite ?andb_true_r, ?andb_false_r; try done.
  rewrite existsb_none; [by rewrite andb_true_r|].
  intros o (c & -> & _)%list_elem_of_fmap. done.
Qed.





(** Nor does a poller that reaches the ban branch after the flag was
    cleared hold back: the branch does not read the flag.  Here B was
    waiting for its membership check when A cleared the flag. *)
Lemma later_ban_fans_out_again :
  ∃ s,
    run (start_monitoring [("A", "a"); ("B", "b")]
           {["A" := Membership true true; "B" := Membership true true]} "1")
        [(0%nat, Start); (1%nat, Start);
         (0%nat, MembershipDone
                   [Answered (Response 200 NoRetryAfter NotJson);
                    Answered (Response 404 NoRetryAfter NotJson)]);
         (0%nat, LeavesDone [[Answered (Response 204 NoRetryAfter NotJson)]]);
         (1%nat, MembershipDone
                   [Answered (Response 200 NoRetryAfter NotJson);
                    Answered (Response 404 NoRetryAfter NotJson)])]
      = Some s
    ∧ trace s =
        [Checked 0 (Some (Membership true true)) (Membership true false);
         BanDetected 0; LeaveCalled 0 "B" true; Latched 0;
         Checked 1 (Some (Membership true true)) (Membership true false);
         BanDetected 1; LeaveCalled 1 "A" false].
Proof. eexists. split; vm_compute; reflexivity. Qed.



(** *** One ban, one leave call for each of the others *)

Lemma bans_app tr tr' : bans (tr ++ tr') = bans tr ++ bans tr'.
Proof.
  induction tr as [|[] tr IH]; simpl; by rewrite ?IH.
Qed.

Lemma leave_calls_app n tr tr' :
  leave_calls n (tr ++ tr') = (leave_calls n tr + leave_calls n tr')%nat.
Proof. unfold leave_calls. by rewrite filter_app, length_app. Qed.

Lemma leave_calls_fan_out n i active (targets : list credential) :
  leave_calls n (map (fun c => LeaveCalled i c.1 active) targets) =
    length (filter (fun c => c.1 = n) targets).
Proof.
  unfold leave_calls.
  induction targets as [|c targets IH]; [done|].
  simpl. rewrite !filter_cons. simpl.
  destruct (decide (c.1 = n)) as [Heq|Hne].
  - rewrite bool_decide_eq_true_2 by done. simpl. by rewrite IH.
  - rewrite bool_decide_eq_false_2 by done. simpl. by rewrite IH.
Qed.

Lemma bans_fan_out i active (targets : list credential) :
  bans (map (fun c => LeaveCalled i c.1 active) targets) = [].
Proof. by induction targets. Qed.

(** What a step adds to the bans and the leave calls: nothing, or the
    ban branch of the poller that ran, with all of its leave calls. *)
Lemma resumes_fan_out s i p p' active seen :
  resumes s i p p' active seen →
  (bans seen = []
   ∧ (∀ n, leave_calls n seen = 0%nat)
   ∧ (∀ j before, Checked j before (Membership true false) ∈ seen →
                  get_in_server before = false)
   ∧ (banned (pc p) → banned (pc p')))
  ∨ (bans seen = [i]
     ∧ pc p = AwaitMembership
     ∧ banned (pc p')
     ∧ (∃ before, Checked i before (Membership true false) ∈ seen
                  ∧ get_in_server before = true)
     ∧ ∀ n, leave_calls n seen =
            length (filter (fun c => c.1 = n)
                      (leave_targets (initial_status s) (all_tokens s)
                         (nama_token p)))).
Proof.
  unfold banned.
  destruct 1 as [| |st Hpc Hsame|st Hpc Hne Hv|st Hpc Hv Hs Hl Ht
                 |st Hpc Hv Hs Hl Ht|st Hpc Hne Hv Hor|tasks results Hpc Hlen
                 |].
  - left. split_and!; try done; [set_solver|].
    intros [?|[? ?]]; congruence.
  - left. split_and!; try done; [set_solver|].
    intros [?|[? ?]]; congruence.
  - left. split_and!; try done.
    + intros j before Hin. set_unfold in Hin.
      destruct_or?; simplify_eq. by rewrite <- Hsame.
    + intros [?|[? ?]]; congruence.
  - left. split_and!; try done.
    + intros j before Hin. set_unfold in Hin.
      destruct_or?; by simplify_eq/=.
    + intros [?|[? ?]]; congruence.
  - right. split_and!; try done; [by left| |].
    + exists (last_status p). split; [|done].
      destruct st; simplify_eq/=. by left.
    + intros n. by rewrite Ht.
  - right. split_and!.
    + simpl. by rewrite bans_fan_out.
    + done.
    + right. by eexists.
    + exists (last_status p). split; [|done].
      destruct st; simplify_eq/=. by left.
    + intros n.
      change (leave_calls n
                ([Checked i (last_status p) st; BanDetected i] ++ ?l))
        with (leave_calls n l).
      apply leave_calls_fan_out.
  - left. split_and!; try done.
    + intros j before Hin. set_unfold in Hin.
      destruct_or?; simplify_eq/=; done.
    + intros [?|[? ?]]; congruence.
  - left. split_and!; try done; [|by left].
    intros j before [?|?%elem_of_nil]%elem_of_cons; by simplify_eq.
  - left. split_and!; try done; [set_solver|].
    intros [?|[? ?]]; congruence.
Qed.

Lemma elem_of_bans i tr : i ∈ bans tr ↔ BanDetected i ∈ tr.
Proof.
  induction tr as [|o tr IH]; [set_solver|].
  destruct o; simpl; rewrite ?elem_of_cons, IH;
    split; intros Hi; destruct_or?; simplify_eq; auto.
Qed.

(** Labels are unique: a label is counted once, where it is listed and
    passes the filter. *)
Lemma count_label (Q : string * string → Prop) `{!∀ c, Decision (Q c)}
    (P : string → Prop) `{!∀ x, Decision (P x)}
    (l : list (string * string)) n :
  (∀ c, Q c ↔ P c.1) →
  NoDup l.*1 →
  length (filter (fun c => c.1 = n) (filter Q l)) =
    if bool_decide (n ∈ l.*1 ∧ P n) then 1%nat else 0%nat.
Proof.
  intros HQ.
  induction l as [|c l IH]; intros Hnd; [reflexivity|].
  rewrite fmap_cons in Hnd. apply NoDup_cons in Hnd as [Hc Hnd].
  specialize (IH Hnd). rewrite fmap_cons, filter_cons.
  destruct (decide (Q c)) as [HP|HP]; rewrite HQ in HP.
  - rewrite filter_cons. destruct (decide (c.1 = n)) as [Heq|Hne].
    + cbn [length]. rewrite IH. subst n.
      rewrite (bool_decide_eq_false_2 (c.1 ∈ l.*1 ∧ _)) by tauto.
      rewrite bool_decide_eq_true_2; [done|]. split; [by left|done].
    + rewrite IH.
      rewrite (bool_decide_ext _ (n ∈ c.1 :: l.*1 ∧ P n)); [done|].
      rewrite elem_of_cons.
      split; [intros [? ?]; auto|intros [[?|?] ?]; [congruence|auto]].
  - rewrite IH.
    rewrite (bool_decide_ext _ (n ∈ c.1 :: l.*1 ∧ P n)); [done|].
    rewrite elem_of_cons. split; [intros [? ?]; auto|].
    intros [[?|?] ?]; [|done].
    by simplify_eq/=.
Qed.

Lemma owed_once initial (tokens : list credential) n d :
  NoDup tokens.*1 → is_Some (tokens !! d) →
  owed initial tokens n d =
    if bool_decide (n ∈ tokens.*1 ∧ tokens.*1 !! d ≠ Some n
                    ∧ initially_in_server initial n = true)
    then 1%nat else 0%nat.
Proof.
  intros Hnd [c Hc]. unfold owed, leave_targets. rewrite Hc.
  etrans;
    [by apply (count_label _
                 (fun x => x ≠ c.1 ∧ initially_in_server initial x = true))|].
  rewrite list_lookup_fmap, Hc. simpl.
  rewrite (bool_decide_ext _ (n ∈ tokens.*1 ∧ Some c.1 ≠ Some n
                              ∧ initially_in_server initial n = true));
    [done|].
  split; intros (? & ? & ?); split_and!; try done; congruence.
Qed.

Lemma NoDup_all_equal {A} (l : list A) d :
  NoDup l → d ∈ l → (∀ x, x ∈ l → x = d) → l = [d].
Proof.
  intros Hnd Hd Hall.
  destruct l as [|x [|y l]].
  - by apply elem_of_nil in Hd.
  - by rewrite (Hall x) by left.
  - apply NoDup_cons in Hnd as [Hx _].
    rewrite (Hall x), (Hall y) in Hx by (repeat constructor).
    exfalso. apply Hx. by left.
Qed.

Lemma fan_out_all_along tokens initial guild schedule s :
  run (start_monitoring tokens initial guild) schedule = Some s →
  (initial_status s = initial ∧ all_tokens s = tokens
   ∧ nama_token <$> pollers s = tokens.*1)
  ∧ (∀ i, i ∈ bans (trace s) →
          ∃ p, pollers s !! i = Some p ∧ banned (pc p))
  ∧ NoDup (bans (trace s))
  ∧ (∀ n, leave_calls n (trace s) =
          sum_list (owed initial tokens n <$> bans (trace s)))
  ∧ (∀ i before,
       Checked i before (Membership true false) ∈ trace s →
       get_in_server before = true → i ∈ bans (trace s))
  ∧ (∀ i, i ∈ bans (trace s) →
          ∃ before, Checked i before (Membership true false) ∈ trace s
                    ∧ get_in_server before = true).
Proof.
  apply (run_invariant
           (fun s =>
              (initial_status s = initial ∧ all_tokens s = tokens
               ∧ nama_token <$> pollers s = tokens.*1)
              ∧ (∀ i, i ∈ bans (trace s) →
                      ∃ p, pollers s !! i = Some p ∧ banned (pc p))
              ∧ NoDup (bans (trace s))
              ∧ (∀ n, leave_calls n (trace s) =
                      sum_list (owed initial tokens n <$> bans (trace s)))
              ∧ (∀ i before,
                   Checked i before (Membership true false) ∈ trace s →
                   get_in_server before = true → i ∈ bans (trace s))
              ∧ (∀ i, i ∈ bans (trace s) →
                      ∃ before,
                        Checked i before (Membership true false) ∈ trace s
                        ∧ get_in_server before = true))).
  - simpl. split_and!; try done.
    + by rewrite <- list_fmap_compose.
    + set_solver.
    + constructor.
    + set_solver.
    + set_solver.
  - clear. intros s it s' ((Hi & Ht & Hn) & Hban & Hnd & Hcount & Hin & Hout)
      Hstep.
    apply step_resumes in Hstep
      as (p & p' & seen & Hp & Hr & Hi' & Ht' & _ & Hps & Htr).
    pose proof (poller_label _ _ _ _ Hn Hp) as Hlabel.
    pose proof (lookup_lt_Some _ _ _ Hp) as Hlt.
    split_and!.
    { congruence. } { congruence. }
    { rewrite Hps, list_fmap_insert, (resumes_nama _ _ _ _ _ _ Hr).
      rewrite list_insert_id; [done|]. by rewrite list_lookup_fmap, Hp. }
    all: rewrite Htr, ?bans_app.
    all: destruct (resumes_fan_out _ _ _ _ _ _ Hr)
           as [(Hb & Hc & Hq & Hk)|(Hb & Hpc & Hk & Hex & Hc)];
         rewrite Hb, ?app_nil_r.
    + intros i Hib. destruct (Hban i Hib) as (q & Hq' & Hbq).
      rewrite Hps. destruct (decide (i = it.1)) as [->|Hne].
      * rewrite list_lookup_insert_eq by done. simplify_eq. eauto.
      * rewrite list_lookup_insert_ne by done. eauto.
    + intros i [Hib| ->%list_elem_of_singleton]%elem_of_app; rewrite Hps.
      * destruct (Hban i Hib) as (q & Hq' & Hbq).
        destruct (decide (i = it.1)) as [->|Hne].
        -- rewrite list_lookup_insert_eq by done. eauto.
        -- rewrite list_lookup_insert_ne by done. eauto.
      * rewrite list_lookup_insert_eq by done. eauto.
    + done.
    + apply NoDup_app. split_and!; [done| |apply NoDup_singleton].
      intros i Hib ->%list_elem_of_singleton.
      destruct (Hban _ Hib) as (q & Hq' & [Hbq|[t Hbq]]); simplify_eq;
        congruence.
    + intros n. by rewrite leave_calls_app, Hc, Hcount, Nat.add_0_r.
    + intros n. rewrite leave_calls_app, Hc, Hcount, fmap_app, sum_list_with_app.
      f_equal. simpl. rewrite Nat.add_0_r. unfold owed.
      apply list_lookup_fmap_Some in Hlabel as (c & Hname & Hc').
      by rewrite Hc', <- Hname, Hi, Ht.
    + intros i before [?|Hs]%elem_of_app Hb'; [by eapply Hin|].
      by rewrite (Hq _ _ Hs) in Hb'.
    + intros i before [?|Hs]%elem_of_app Hb';
        apply elem_of_app; [left; by eapply Hin|right].
      apply list_elem_of_singleton.
      apply (resumes_observer _ _ _ _ _ _ _ Hr Hs).
    + intros i Hib. destruct (Hout i Hib) as (before & ? & ?).
      exists before. split; [|done]. apply elem_of_app. by left.
    + intros i [Hib| ->%list_elem_of_singleton]%elem_of_app.
      * destruct (Hout i Hib) as (before & ? & ?).
        exists before. split; [|done]. apply elem_of_app. by left.
      * destruct Hex as (before & ? & ?).
        exists before. split; [|done]. apply elem_of_app. by right.
Qed.

(** C3, as stated, fails: a credential whose live status goes from in
    the server to invalid (and so not in the server) takes the branch
    of line 227, not the ban branch of line 230.  A is seen invalid;
    it is the only credential whose in-server flag went from true to
    false; no leave call is made for B. *)
Lemma invalidation_triggers_no_leave :
  ¬ (∀ tokens initial guild schedule s d,
       NoDup tokens.*1 →
       run (start_monitoring tokens initial guild) schedule = Some s →
       (∃ before now, Checked d before now ∈ trace s
                      ∧ get_in_server before = true
                      ∧ in_server now = false) →
       (∀ i before now, Checked i before now ∈ trace s →
                        get_in_server before = true →
                        in_server now = false → i = d) →
       ∀ n, leave_calls n (trace s) =
            if bool_decide (n ∈ tokens.*1 ∧ tokens.*1 !! d ≠ Some n
                            ∧ initially_in_server initial n = true)
            then 1%nat else 0%nat).
Proof.
  intros H.
  pose (schedule :=
          [(0%nat, Start); (1%nat, Start);
           (0%nat, MembershipDone
                     [Answered (Response 401 NoRetryAfter NotJson)])]).
  pose (initial := ({["A" := Membership true true;
                      "B" := Membership true true]}
                    : gmap string membership)).
  destruct (run (start_monitoring [("A", "a"); ("B", "b")] initial "1")
              schedule) as [s|] eqn:Hrun; [|by vm_compute in Hrun].
  pose proof Hrun as Hrun'. vm_compute in Hrun'. injection Hrun' as <-.
  opose proof (H [("A", "a"); ("B", "b")] initial "1" schedule _ 0%nat
                 _ Hrun _ _ "B") as E.
  - apply (bool_decide_unpack _). by vm_compute.
  - exists (Some (Membership true true)), (Membership false false).
    split_and!; [by left|done..].
  - intros i before now Hin ? ?. set_unfold in Hin.
    destruct_or?; by simplify_eq.
  - by vm_compute in E.
Qed.

(** C3 (amended). Labels being unique: if exactly one credential is
    seen to go from in the server to valid and not in the server, then
    from that moment on (so when all pollers have stopped, too) exactly
    one leave call has been made for every other credential that
    started in the server, and none for the banned credential, for a
    credential that did not start in the server, or for any other
    label. *)
Theorem one_ban_one_leave_each tokens initial guild schedule s d :
  NoDup tokens.*1 →
  run (start_monitoring tokens initial guild) schedule = Some s →
  (∃ before, Checked d before (Membership true false) ∈ trace s
             ∧ get_in_server before = true) →
  (∀ i before, Checked i before (Membership true false) ∈ trace s →
               get_in_server before = true → i = d) →
  ∀ n, leave_calls n (trace s) =
       if bool_decide (n ∈ tokens.*1 ∧ tokens.*1 !! d ≠ Some n
                       ∧ initially_in_server initial n = true)
       then 1%nat else 0%nat.
Proof.
  intros Hnd Hrun (before & Hd & Hb) Huniq n.
  destruct (fan_out_all_along _ _ _ _ _ Hrun)
    as ((_ & _ & Hn) & Hban & Hbans & Hcount & Hin & Hout).
  assert (bans (trace s) = [d]) as Hone.
  { apply NoDup_all_equal; [done|by eapply Hin|].
    intros i (b & ? & ?)%Hout. by eapply Huniq. }
  rewrite Hcount, Hone. simpl. rewrite Nat.add_0_r.
  apply owed_once; [done|].
  destruct (Hban d) as (p & Hp & _); [rewrite Hone; by left|].
  pose proof (poller_label _ _ _ _ Hn Hp) as Hl.
  apply list_lookup_fmap_Some in Hl as (c & _ & ->). by eexists.
Qed.

Lemma one_ban_one_leave_each_witness :
  ∃ s,
    run (start_monitoring [("A", "a"); ("B", "b"); ("C", "c")]
           {["A" := Membership true true; "B" := Membership true true;
             "C" := Membership true false]} "1")
        [(0%nat, Start); (1%nat, Start); (2%nat, Start);
         (0%nat, MembershipDone
                   [Answered (Response 200 NoRetryAfter NotJson);
                    Answered (Response 404 NoRetryAfter NotJson)]);
         (0%nat, LeavesDone [[Answered (Response 204 NoRetryAfter NotJson)]]);
         (1%nat, MembershipDone
                   [Answered (Response 200 NoRetryAfter NotJson);
                    Answered (Response 200 NoRetryAfter NotJson)])]
      = Some s
    ∧ leave_calls "B" (trace s) = 1%nat.
Proof.
  eexists. split; [vm_compute; reflexivity|].
  etrans;
    [apply (one_ban_one_leave_each
              [("A", "a"); ("B", "b"); ("C", "c")]
              {["A" := Membership true true; "B" := Membership true true;
                "C" := Membership true false]} "1"
              [(0%nat, Start); (1%nat, Start); (2%nat, Start);
               (0%nat, MembershipDone
                         [Answered (Response 200 NoRetryAfter NotJson);
                          Answered (Response 404 NoRetryAfter NotJson)]);
               (0%nat, LeavesDone
                         [[Answered (Response 204 NoRetryAfter NotJson)]]);
               (1%nat, MembershipDone
                   [Answered (Response 200 NoRetryAfter NotJson);
                    Answered (Response 200 NoRetryAfter NotJson)])]
              _ 0%nat)
    |vm_compute; reflexivity].
  - apply (bool_decide_unpack _). by vm_compute.
  - vm_compute. reflexivity.
  - exists (Some (Membership true true)). split; [by left|done].
  - intros i before Hin _. set_unfold in Hin.
    destruct_or?; by simplify_eq.
Defined.

(** * Further properties *)

(** ** Strings *)

Lemma list_ascii_of_string_app a b :
  String.list_ascii_of_string (String.append a b) =
    String.list_ascii_of_string a ++ String.list_ascii_of_string b.
Proof. induction a as [|x a IH]; simpl; [done|by rewrite IH]. Qed.

Lemma string_of_list_ascii_app l1 l2 :
  String.string_of_list_ascii (l1 ++ l2) =
    String.append (String.string_of_list_ascii l1)
                  (String.string_of_list_ascii l2).
Proof. induction l1 as [|x l1 IH]; simpl; [done|by rewrite IH]. Qed.

Lemma elem_of_rev {A} (x : A) (l : list A) : x ∈ rev l ↔ x ∈ l.
Proof. rewrite !list_elem_of_In. symmetry. apply in_rev. Qed.

Lemma drop_prefix_Some pat l l' :
  drop_prefix pat l = Some l' ↔ l = pat ++ l'.
Proof.
  revert l. induction pat as [|a pat IH]; intros l; simpl.
  { split; [by intros [= ->]|by intros ->]. }
  destruct l as [|b l]; [done|].
  destruct (Ascii.eqb a b) eqn:E.
  - apply Ascii.eqb_eq in E. subst b. rewrite IH.
    split; [by intros ->|by intros [= ->]].
  - apply Ascii.eqb_neq in E. split; [done|]. by intros [= -> _].
Qed.

Lemma drop_first_Some pats l l' :
  drop_first pats l = Some l' → ∃ pat, pat ∈ pats ∧ l = pat ++ l'.
Proof.
  induction pats as [|pat pats IH]; simpl; [done|].
  destruct (drop_prefix pat l) as [l0|] eqn:E.
  - intros [= ->]. apply drop_prefix_Some in E. exists pat.
    split; [left|done].
  - intros (pat' & ? & ?)%IH. exists pat'. split; [by right|done].
Qed.

Lemma drop_first_None pats l :
  drop_first pats l = None ↔ ∀ pat l', pat ∈ pats → l ≠ pat ++ l'.
Proof.
  induction pats as [|pat pats IH]; simpl.
  { split; [|done]. by intros _ pat l' ?%elem_of_nil. }
  destruct (drop_prefix pat l) as [l0|] eqn:E.
  - apply drop_prefix_Some in E. split; [done|]. intros H.
    destruct (H pat l0); [left|done].
  - rewrite IH. split.
    + intros H pat' l' [->|?]%elem_of_cons; [|by apply H].
      intros Hl%drop_prefix_Some. congruence.
    + intros H pat' l' ?. apply H. by right.
Qed.

(** Stripping removes from the front, removes characters of [pats]
    only, leaves none of them at the front, and leaves alone what has
    none there. *)
Lemma lstrip_by_suffix pats fuel l :
  ∃ removed, l = removed ++ lstrip_by pats fuel l.
Proof.
  revert l. induction fuel as [|fuel IH]; intros l; simpl; [by exists []|].
  destruct (drop_first pats l) as [l'|] eqn:E; [|by exists []].
  apply drop_first_Some in E as (pat & _ & ->).
  destruct (IH l') as [removed Hr]. exists (pat ++ removed).
  by rewrite <- app_assoc, <- Hr.
Qed.

Lemma lstrip_by_keeps pats fuel l x :
  (∀ pat, pat ∈ pats → x ∉ pat) → x ∈ l → x ∈ lstrip_by pats fuel l.
Proof.
  intros Hpats. revert l.
  induction fuel as [|fuel IH]; intros l Hx; simpl; [done|].
  destruct (drop_first pats l) as [l'|] eqn:E; [|done].
  apply drop_first_Some in E as (pat & Hpat & ->).
  apply IH. apply elem_of_app in Hx as [Hx|Hx]; [|done].
  by destruct (Hpats pat Hpat).
Qed.

Lemma lstrip_by_clean pats fuel l :
  Forall (fun pat => pat ≠ []) pats →
  (length l ≤ fuel)%nat →
  drop_first pats (lstrip_by pats fuel l) = None.
Proof.
  intros Hpats. revert l.
  induction fuel as [|fuel IH]; intros l Hlen; simpl.
  - destruct l; [|simpl in Hlen; lia].
    apply drop_first_None. intros pat l' Hpat Hl.
    rewrite Forall_forall in Hpats. apply (Hpats pat Hpat).
    symmetry in Hl. by apply app_eq_nil in Hl as [? _].
  - destruct (drop_first pats l) as [l'|] eqn:E; [|done].
    apply IH. apply drop_first_Some in E as (pat & Hpat & ->).
    rewrite Forall_forall in Hpats. specialize (Hpats pat Hpat).
    rewrite length_app in Hlen. destruct pat; [done|simpl in Hlen; lia].
Qed.

Lemma lstrip_by_id pats fuel l :
  drop_first pats l = None → lstrip_by pats fuel l = l.
Proof. destruct fuel; simpl; [done|]. by intros ->. Qed.

Lemma whitespace_characters :
  Forall (fun pat => pat ≠ []) whitespace
  ∧ Forall (fun pat => pat ≠ []) (map (@rev ascii) whitespace)
  ∧ Forall (fun pat => colon ∉ pat) whitespace.
Proof.
  split_and!; apply (bool_decide_unpack _); by vm_compute.
Qed.

(** What [strip] leaves has clean ends. *)
Lemma strip_clean_ends l :
  drop_first whitespace (rstrip (lstrip l)) = None
  ∧ drop_first (map (@rev ascii) whitespace) (rev (rstrip (lstrip l)))
    = None.
Proof.
  destruct whitespace_characters as (Hw & Hr & _).
  unfold rstrip. rewrite rev_involutive. split.
  - destruct (lstrip_by_suffix (map (@rev ascii) whitespace)
                (length (lstrip l)) (rev (lstrip l))) as [removed Hrem].
    apply (f_equal (@rev ascii)) in Hrem.
    rewrite rev_involutive, rev_app_distr in Hrem.
    pose proof (lstrip_by_clean whitespace (length l) l Hw (le_n _)) as Hc.
    fold (lstrip l) in Hc. rewrite drop_first_None in Hc.
    apply drop_first_None. intros pat l' Hpat Hl.
    apply (Hc pat (l' ++ rev removed) Hpat).
    by rewrite Hrem, Hl, <- app_assoc.
  - apply lstrip_by_clean; [done|]. by rewrite length_rev.
Qed.

Lemma strip_idempotent s : strip (strip s) = strip s.
Proof.
  unfold strip. rewrite String.list_ascii_of_string_of_list_ascii.
  destruct (strip_clean_ends (String.list_ascii_of_string s)) as [H1 H2].
  set (r := rstrip (lstrip (String.list_ascii_of_string s))) in *.
  assert (lstrip r = r) as -> by (by apply lstrip_by_id).
  unfold rstrip at 1. by rewrite lstrip_by_id, rev_involutive.
Qed.

Lemma strip_keeps_colon s :
  colon ∈ String.list_ascii_of_string s →
  colon ∈ String.list_ascii_of_string (strip s).
Proof.
  destruct whitespace_characters as (_ & _ & Hc).
  rewrite Forall_forall in Hc.
  intros Hin. unfold strip, rstrip, lstrip.
  rewrite String.list_ascii_of_string_of_list_ascii.
  apply elem_of_rev, lstrip_by_keeps.
  - intros pat (pat' & -> & Hpat)%list_elem_of_fmap.
    rewrite elem_of_rev. by apply Hc.
  - apply elem_of_rev, lstrip_by_keeps; [|done]. apply Hc.
Qed.

(** ** Proxies *)

(** X1. Every proxy [load_proxies] returns is a line of proxy.txt with
    the surrounding whitespace removed: it is not empty and stripping
    it again changes nothing.  Without the file there is no proxy. *)
Theorem load_proxies_stripped file p :
  p ∈ load_proxies file →
  p ≠ "" ∧ strip p = p ∧ ∃ lines line,
    file = Some lines ∧ line ∈ lines ∧ p = strip line.
Proof.
  destruct file as [lines|]; simpl; [|by intros ?%elem_of_nil].
  intros [Hne (line & -> & Hline)%list_elem_of_fmap]%list_elem_of_filter.
  split_and!; [done|apply strip_idempotent|by exists lines, line].
Qed.

Lemma load_proxies_stripped_witness :
  "10.0.0.1:8080" ≠ "" ∧ strip "10.0.0.1:8080" = "10.0.0.1:8080".
Proof.
  destruct (load_proxies_stripped
              (Some [String "194"%char (String "160"%char " 10.0.0.1:8080 ");
                     String "194"%char (String "160"%char "  "); ""])
              "10.0.0.1:8080")
    as (H1 & H2 & _); [|by split].
  vm_compute. left.
Defined.

(** X2. With a non-empty proxy list every credential gets one of the
    listed proxies, the same one every [len(proxies)] positions, and
    the first [len(proxies)] credentials get the proxies in file order;
    the index of lines 127 and 338 is never out of range. *)
Theorem proxy_for_round_robin proxies i :
  proxies ≠ [] →
  (∃ p, proxy_for proxies i = Some p ∧ p ∈ proxies)
  ∧ proxy_for proxies (i + length proxies) = proxy_for proxies i
  ∧ ((i < length proxies)%nat → proxy_for proxies i = proxies !! i).
Proof.
  intros Hne. unfold proxy_for.
  destruct proxies as [|p0 proxies]; [done|].
  set (ps := p0 :: proxies) in *.
  assert (length ps ≠ 0%nat) as Hlen by done.
  split_and!.
  - destruct (lookup_lt_is_Some_2 ps (i mod length ps)) as [p Hp].
    { by apply Nat.mod_upper_bound. }
    exists p. split; [done|]. by eapply list_elem_of_lookup_2.
  - f_equal. rewrite <- (Nat.Div0.mod_add i 1 (length ps)). f_equal. lia.
  - intros Hi. by rewrite Nat.mod_small.
Qed.

Lemma proxy_for_round_robin_witness :
  proxy_for ["p:1"; "q:2"] (3 + 2) = proxy_for ["p:1"; "q:2"] 3.
Proof.
  destruct (proxy_for_round_robin ["p:1"; "q:2"] 3) as (_ & H & _);
    [done|exact H].
Defined.

Lemma count_colons_app a b :
  count_colons (String.append a b) = (count_colons a + count_colons b)%nat.
Proof.
  unfold count_colons.
  by rewrite list_ascii_of_string_app, filter_app, length_app.
Qed.

Lemma rsplit_at_join l auth host :
  rsplit_at l = Some (auth, host) → l = auth ++ "@"%char :: host.
Proof.
  revert auth. induction l as [|a l IH]; intros auth H; [done|].
  simpl in H. destruct (rsplit_at l) as [[auth' host']|].
  - simplify_eq. simpl. by rewrite <- IH.
  - destruct (Ascii.eqb a "@"%char) eqn:E; [|done].
    apply Ascii.eqb_eq in E. by simplify_eq.
Qed.

(** X3. Whenever [format_proxy] returns a URL, it is "http://"
    followed by the proxy line exactly as given: splitting at the last
    "@" and joining again changes nothing; and it does so only for
    lines with exactly one or exactly three colons. *)
Theorem format_proxy_prefixes_http proxy url :
  format_proxy proxy = Returned (Some url) →
  url = String.append "http://" proxy
  ∧ (count_colons proxy = 1%nat ∨ count_colons proxy = 3%nat).
Proof.
  unfold format_proxy. case_bool_decide; [done|].
  destruct (count_colons proxy =? 3)%nat eqn:E3.
  - apply Nat.eqb_eq in E3.
    destruct (rsplit_at _) as [[auth host]|] eqn:Er; [|done].
    intros ?; simplify_eq. split; [|by right].
    apply rsplit_at_join in Er.
    apply (f_equal String.string_of_list_ascii) in Er.
    rewrite String.string_of_list_ascii_of_string in Er.
    rewrite Er. by rewrite string_of_list_ascii_app.
  - destruct (count_colons proxy =? 1)%nat eqn:E1; [|done].
    apply Nat.eqb_eq in E1. intros ?; simplify_eq. split; [done|by left].
Qed.

Lemma format_proxy_prefixes_http_witness :
  "http://a:b:c@h:1" = String.append "http://" "a:b:c@h:1"
  ∧ (count_colons "a:b:c@h:1" = 1%nat ∨ count_colons "a:b:c@h:1" = 3%nat).
Proof. apply (format_proxy_prefixes_http "a:b:c@h:1"). reflexivity. Defined.

(** X4. A proxy line of the form the comment of line 31 names,
    username:password@host:port, has two colons, not three:
    [format_proxy] returns [None] for it, and the session is created
    without a usable proxy URL. *)
Theorem format_proxy_rejects_user_pass_host_port user pass host port :
  count_colons user = 0%nat → count_colons pass = 0%nat →
  count_colons host = 0%nat → count_colons port = 0%nat →
  format_proxy
    (String.append user
       (String.append ":"
          (String.append pass
             (String.append "@"
                (String.append host (String.append ":" port))))))
  = Returned None.
Proof.
  intros Hu Hp Hh Ho. unfold format_proxy.
  rewrite !count_colons_app, Hu, Hp, Hh, Ho. simpl.
  by case_bool_decide.
Qed.

Lemma format_proxy_rejects_user_pass_host_port_witness :
  format_proxy "user:secret@10.0.0.1:8080" = Returned None.
Proof.
  apply (format_proxy_rejects_user_pass_host_port
           "user" "secret" "10.0.0.1" "8080"); reflexivity.
Defined.

(** ** Reading token.txt *)

Lemma no_colon_counted l :
  colon ∉ l → length (filter (fun a => a = colon) l) = 0%nat.
Proof.
  induction l as [|a l IH]; intros H; [done|].
  rewrite filter_cons. destruct (decide (a = colon)) as [->|].
  - destruct H. left.
  - apply IH. intros ?. apply H. by right.
Qed.

Lemma colon_counted l :
  colon ∈ l → (1 ≤ length (filter (fun a => a = colon) l))%nat.
Proof.
  induction l as [|a l IH]; intros H; [by apply elem_of_nil in H|].
  rewrite filter_cons. destruct (decide (a = colon)) as [->|Hne].
  - simpl. lia.
  - apply IH. apply elem_of_cons in H as [?|?]; [by subst|done].
Qed.

Lemma field_without_colon field :
  colon ∉ field →
  count_colons (String.string_of_list_ascii (rev field)) = 0%nat.
Proof.
  intros H. unfold count_colons.
  rewrite String.list_ascii_of_string_of_list_ascii.
  apply no_colon_counted. by rewrite elem_of_rev.
Qed.

Lemma split_colon_nonempty field l : split_colon field l ≠ [].
Proof.
  revert field. induction l as [|a l IH]; intros field;
    cbn [split_colon]; [done|].
  destruct (Ascii.eqb colon a); [done|apply IH].
Qed.

Lemma split_colon_concat field l :
  String.concat ":" (split_colon field l) =
    String.string_of_list_ascii (rev field ++ l).
Proof.
  revert field. induction l as [|a l IH]; intros field; cbn [split_colon].
  - simpl. by rewrite app_nil_r.
  - destruct (Ascii.eqb colon a) eqn:E.
    + apply Ascii.eqb_eq in E. subst a.
      pose proof (split_colon_nonempty [] l) as Hne.
      specialize (IH []). simpl in IH. revert IH Hne.
      destruct (split_colon [] l) as [|x xs]; intros IH Hne; [done|].
      change (String.append (String.string_of_list_ascii (rev field))
                (String.append ":" (String.concat ":" (x :: xs)))
              = String.string_of_list_ascii (rev field ++ colon :: l)).
      rewrite IH, string_of_list_ascii_app. done.
    + rewrite IH. simpl. by rewrite <- app_assoc.
Qed.

Lemma split_colon_fields field l :
  colon ∉ field →
  Forall (fun f => count_colons f = 0%nat) (split_colon field l)
  ∧ length (split_colon field l) =
      S (length (filter (fun a => a = colon) l)).
Proof.
  revert field. induction l as [|a l IH]; intros field Hf;
    cbn [split_colon].
  - split; [|done]. constructor; [|done]. by apply field_without_colon.
  - rewrite filter_cons. destruct (Ascii.eqb colon a) eqn:E.
    + apply Ascii.eqb_eq in E. subst a.
      destruct (IH []) as [IH1 IH2]; [by intros ?%elem_of_nil|].
      rewrite decide_True by done. simpl. rewrite IH2. split; [|done].
      constructor; [|done]. by apply field_without_colon.
    + apply Ascii.eqb_neq in E.
      rewrite decide_False by done.
      apply IH. intros [?|?]%elem_of_cons; [by subst|done].
Qed.

Lemma split_colon_of_string s :
  String.concat ":" (split_colon [] (String.list_ascii_of_string s)) = s
  ∧ Forall (fun f => count_colons f = 0%nat)
      (split_colon [] (String.list_ascii_of_string s))
  ∧ length (split_colon [] (String.list_ascii_of_string s)) =
      S (count_colons s).
Proof.
  destruct (split_colon_fields [] (String.list_ascii_of_string s))
    as [H1 H2]; [by intros ?%elem_of_nil|].
  split_and!; [|done|done].
  rewrite split_colon_concat. simpl.
  apply String.string_of_list_ascii_of_string.
Qed.

(** X5. [line.split(":")] loses nothing: joining the fields with ":"
    gives the line back, no field holds a colon, and there is one field
    more than there are colons. *)
Theorem split_colon_round_trip s :
  String.concat ":" (split_colon [] (String.list_ascii_of_string s)) = s
  ∧ Forall (fun f => count_colons f = 0%nat)
      (split_colon [] (String.list_ascii_of_string s))
  ∧ length (split_colon [] (String.list_ascii_of_string s)) =
      S (count_colons s).
Proof. apply split_colon_of_string. Qed.

(** X6. Every entry line 306 builds has at least two fields, none of
    them holding a colon, and joined with ":" they are a line of
    token.txt without its surrounding whitespace; so the unpacking of
    line 126 can only fail on a line with two colons or more. *)
Theorem read_tokens_fields lines fields :
  fields ∈ read_tokens lines →
  (2 ≤ length fields)%nat
  ∧ Forall (fun f => count_colons f = 0%nat) fields
  ∧ ∃ line, line ∈ lines ∧ String.concat ":" fields = strip line.
Proof.
  unfold read_tokens.
  change (map ?f ?l) with (f <$> l).
  intros (line & -> & [Hc Hline]%list_elem_of_filter)%list_elem_of_fmap.
  destruct (split_colon_of_string (strip line)) as (H1 & H2 & H3).
  split_and!; [|done|by exists line].
  rewrite H3. apply le_n_S.
  unfold has_colon in Hc. apply existsb_exists in Hc as (x & Hx & E).
  apply Ascii.eqb_eq in E. subst x. apply list_elem_of_In in Hx.
  by apply colon_counted, strip_keeps_colon.
Qed.

Lemma read_tokens_fields_witness :
  (2 ≤ length ["alice"; " tok"])%nat.
Proof.
  destruct (read_tokens_fields
              ["# no token here";
               String.append "  alice: tok "
                 (String "194"%char (String "160"%char ""))]
              ["alice"; " tok"]) as (H & _); [|exact H].
  vm_compute. left.
Defined.

(** ** Starting the monitor *)

(** X24. [format_proxy] raises nothing but the ValueError of the
    unpacking of line 32, and raises it exactly on a line with three
    colons and no "@", such as host:port:user:password. *)
Theorem format_proxy_raises_iff proxy :
  (∀ e, format_proxy proxy = Raised e →
        e = ValueError "not enough values to unpack")
  ∧ (format_proxy proxy = Raised (ValueError "not enough values to unpack")
     ↔ count_colons proxy = 3%nat
       ∧ "@"%char ∉ String.list_ascii_of_string proxy).
Proof. apply format_proxy_raises. Qed.

Lemma isdigit_not_empty digits s : isdigit digits s = true → s ≠ "".
Proof. by intros H ->. Qed.

(** X7. [main] reaches line 328, where monitoring starts, exactly when
    token.txt can be opened, at least one of its lines holds a colon,
    every such line splits into exactly two fields, no proxy line used
    for one of the credentials has three colons and no "@" (line 32
    raises on such a line when the session of line 130 is created, and
    the handler of line 424 ends [main]), and the line the operator
    types is all digits once stripped.  The replies of the service
    play no part: [validate_tokens] returns every credential it was
    given, valid or not, so the return of lines 319-321 is never
    taken. *)
Theorem monitoring_starts_iff env :
  monitoring_started (main env) = true ↔
  ∃ lines line,
    token_txt env = Some lines
    ∧ read_tokens lines ≠ []
    ∧ (unpack (read_tokens lines)).2 = true
    ∧ sessions_open (load_proxies (proxy_txt env))
        (length (read_tokens lines))
    ∧ operator env = Typed line
    ∧ isdigit (unicode_digits env) (strip line) = true.
Proof.
  rewrite main_started. split.
  - intros Hs.
    destruct (main_body_cases env)
      as [(Hf & _)|[(Hf & _)|(_ & _ & lines & line & Hrun)]];
      [congruence|congruence|].
    exists lines, line. destruct Hrun as (? & ? & ? & ? & ? & _ & ?).
    done.
  - intros (lines & line & Ht & Hr & Hu & Hopen & Ho & Hd).
    unfold main_body. rewrite Ht.
    destruct (read_tokens lines) as [|fields tokens] eqn:Er; [done|].
    pose proof (unpack_length (fields :: tokens)) as Hlen.
    destruct (unpack (fields :: tokens)) as [credentials unpacked].
    simpl in Hu. subst unpacked. specialize (Hlen _ eq_refl).
    rewrite <- Hlen in Hopen.
    destruct (returned (validate_tokens _ credentials (network env)))
      as [all_tokens|e] eqn:Hv.
    2:{ exfalso.
        assert (∃ l, returned (validate_tokens
                                 (load_proxies (proxy_txt env)) credentials
                                 (network env)) = Returned l) as [l Hl].
        { eexists. by apply validate_tokens_returned. }
        congruence. }
    pose proof (validate_tokens_length _ _ _ _ Hv) as Hlen'.
    cbn [negb].
    destruct all_tokens as [|c all_tokens];
      [rewrite Hlen in Hlen'; done|].
    rewrite Ho, Hd. cbn [negb].
    rewrite bool_decide_eq_false_2; [done|].
    by eapply isdigit_not_empty.
Qed.

Lemma monitoring_starts_iff_witness :
  monitoring_started
    (main (Environment (Some ["alice:tok"]) (Some ["10.0.0.1:8080"])
             [Answered (Response 401 NoRetryAfter NotJson)]
             (Typed (String.append " "
                       (String "217"%char (String "161"%char
                          (String "217"%char (String "162"%char
                             (String "194"%char (String "160"%char ""))))))))
             PollersReturned (fun _ => false)))
  = true.
Proof.
  apply monitoring_starts_iff. eexists _, _.
  split_and!; [reflexivity|by vm_compute|reflexivity| |reflexivity
              |by vm_compute].
  intros k p Hk Hp H3. simpl in Hk.
  assert (k = 0%nat) as -> by lia.
  vm_compute in Hp. by simplify_eq.
Defined.

(** ** The running time *)

Lemma running_clock_bounds elapsed h m s :
  running_clock elapsed = (h, m, s) →
  0 ≤ h < 24 ∧ 0 ≤ m < 60 ∧ 0 ≤ s < 60
  ∧ h * 3600 + m * 60 + s = elapsed mod 86400.
Proof.
  unfold running_clock, divmod, timedelta_seconds. intros ?; simplify_eq.
  pose proof (Z.mod_pos_bound elapsed 86400 eq_refl) as Hd.
  set (d := elapsed mod 86400) in *.
  pose proof (Z.mod_pos_bound d 3600 eq_refl) as Hr.
  pose proof (Z.div_mod d 3600 ltac:(done)) as Hq.
  set (r := d mod 3600) in *.
  pose proof (Z.mod_pos_bound r 60 eq_refl).
  pose proof (Z.div_mod r 60 ltac:(done)).
  assert (0 ≤ d / 3600 < 24).
  { split; [apply Z.div_pos; lia|apply Z.div_lt_upper_bound; lia]. }
  assert (0 ≤ r / 60 < 60).
  { split; [apply Z.div_pos; lia|apply Z.div_lt_upper_bound; lia]. }
  lia.
Qed.

(** X8. The clock of [get_running_time] shows hours below 24,
    minutes and seconds below 60, and together they make up the
    elapsed time modulo one day: [timedelta.seconds] leaves the days
    out, so the display is the same again 24 hours later. *)
Theorem running_clock_wraps_daily elapsed :
  (∃ h m s, running_clock elapsed = (h, m, s)
            ∧ 0 ≤ h < 24 ∧ 0 ≤ m < 60 ∧ 0 ≤ s < 60
            ∧ h * 3600 + m * 60 + s = elapsed mod 86400)
  ∧ get_running_time (elapsed + 86400) = get_running_time elapsed.
Proof.
  split.
  - destruct (running_clock elapsed) as [[h m] s] eqn:E.
    exists h, m, s. split; [done|]. by apply running_clock_bounds.
  - unfold get_running_time, running_clock, timedelta_seconds.
    by rewrite <- (Z.mul_1_l 86400) at 1; rewrite Z_mod_plus_full.
Qed.

Lemma string_length_append a b :
  String.length (String.append a b) = (String.length a + String.length b)%nat.
Proof. induction a as [|c a IH]; simpl; [done|by rewrite IH]. Qed.

Lemma format_02d_width n :
  0 ≤ n < 100 → String.length (format_02d n) = 2%nat.
Proof.
  intros Hn.
  assert (forallb (fun k => (String.length (format_02d (Z.of_nat k)) =? 2)%nat)
            (seq 0 100) = true) as Hall by (vm_compute; reflexivity).
  rewrite forallb_forall in Hall.
  specialize (Hall (Z.to_nat n)).
  rewrite Z2Nat.id in Hall by lia.
  apply Nat.eqb_eq, Hall, in_seq. lia.
Qed.

(** X9. The text [get_running_time] returns is always eight
    characters long, so the padding [35 - len(running_time)] of line
    203 is always 27. *)
Theorem get_running_time_width elapsed :
  String.length (get_running_time elapsed) = 8%nat.
Proof.
  unfold get_running_time.
  destruct (running_clock elapsed) as [[h m] s] eqn:E.
  apply running_clock_bounds in E as (Hh & Hm & Hs & _).
  rewrite !string_length_append, !format_02d_width by lia. done.
Qed.

(** ** What the client calls answer on *)

Lemma retried_intro a d :
  status a = 429 → float_retry_after a = Some d →
  retried (Answered a) = true ∧ delay_of (Answered a) = d.
Proof.
  intros Hs Hf. simpl. rewrite Hs, Hf. split; [|done].
  apply andb_true_intro. split; [done|].
  apply bool_decide_eq_true. by eexists.
Qed.

(** X10. [check_token_validity] answers [True] exactly when the
    script starts with a run of 429 answers it waits on, followed by an
    answer with status 200: it then has asked /users/@me once for each
    of them, slept after each 429 for the time that answer named, and
    read nothing behind the 200. *)
Theorem check_token_validity_accepts net :
  returned (check_token_validity net) = true ↔
  ∃ limited a,
    net = limited ++ Answered a :: unread (check_token_validity net)
    ∧ Forall (fun r => retried r = true) limited
    ∧ status a = 200
    ∧ effects (check_token_validity net) =
        waits UsersMe limited ++ [Request UsersMe (Answered a)].
Proof.
  split.
  - induction net as [|[a|] net IH]; simpl; [done| |done].
    destruct (status a =? 200) eqn:E200.
    { intros _. exists [], a. split_and!; try done. lia. }
    destruct (status a =? 401); [done|].
    destruct (status a =? 429) eqn:E429; [|done].
    destruct (float_retry_after a) as [d|] eqn:Ef; [|done].
    simpl. intros (limited & b & Hnet & Hl & Hs & He)%IH.
    destruct (retried_intro a d) as [Hr Hd]; [lia|done|].
    exists (Answered a :: limited), b. split_and!; try done.
    + simpl. by rewrite <- Hnet.
    + by constructor.
    + rewrite He. simpl. simpl in Hd. by rewrite Hd.
  - intros (limited & a & Hnet & Hl & Hs & _). rewrite Hnet.
    rewrite check_token_validity_waits by done.
    simpl. rewrite Hs. done.
Qed.

(** X11. [leave_server] answers [True] exactly when, after the 429
    answers it waits on, the service answers 204 or 404: a guild the
    credential is no longer in counts as a successful exit; every
    other answer, and every transport failure, is [False]. *)
Theorem leave_server_succeeds net :
  returned (leave_server net) = true ↔
  ∃ limited a,
    net = limited ++ Answered a :: unread (leave_server net)
    ∧ Forall (fun r => retried r = true) limited
    ∧ (status a = 204 ∨ status a = 404)
    ∧ effects (leave_server net) =
        waits LeaveGuild limited ++ [Request LeaveGuild (Answered a)].
Proof.
  split.
  - induction net as [|[a|] net IH]; simpl; [done| |done].
    destruct (status a =? 204) eqn:E204.
    { intros _. exists [], a. split_and!; try done. lia. }
    destruct (status a =? 404) eqn:E404.
    { intros _. exists [], a. split_and!; try done. lia. }
    destruct (status a =? 429) eqn:E429; [|done].
    destruct (float_retry_after a) as [d|] eqn:Ef; [|done].
    simpl. intros (limited & b & Hnet & Hl & Hs & He)%IH.
    destruct (retried_intro a d) as [Hr Hd]; [lia|done|].
    exists (Answered a :: limited), b. split_and!; try done.
    + simpl. by rewrite <- Hnet.
    + by constructor.
    + rewrite He. simpl. simpl in Hd. by rewrite Hd.
  - intros (limited & a & Hnet & Hl & Hs & _). rewrite Hnet.
    rewrite leave_server_waits by done.
    simpl. destruct Hs as [-> | ->]; done.
Qed.

Lemma any_guild_true guild ids :
  any_guild guild ids = Some true → Some guild ∈ ids.
Proof.
  induction ids as [|[id|] ids IH]; simpl; [done| |done].
  destruct (String.eqb id guild) eqn:E.
  - apply String.eqb_eq in E. subst. intros _. left.
  - intros ?. right. by apply IH.
Qed.

(** X12. [check_server_membership] reports a credential in the
    server only on positive evidence: its last request was the member
    query answered 200, or the guild list answered 200 with a guild of
    that id in it. *)
Theorem in_server_needs_evidence fuel guild net r :
  check_server_membership fuel guild net = Some r →
  in_server (returned r) = true →
  ∃ ev a,
    status a = 200
    ∧ (effects r = ev ++ [Request GuildMember (Answered a)]
       ∨ (effects r = ev ++ [Request UserGuilds (Answered a)]
          ∧ ∃ ids, body a = GuildList ids ∧ Some guild ∈ ids)).
Proof.
  revert net r. induction fuel as [|fuel IH]; intros net r H Hin; [done|].
  cbn [check_server_membership] in H.
  destruct (negb (returned (check_token_validity net))).
  { by simplify_eq/=. }
  destruct (next_reply (unread (check_token_validity net))) as [[a|] net1].
  2:{ by simplify_eq/=. }
  destruct (status a =? 200) eqn:E200.
  { simplify_eq/=. eexists _, a. split; [lia|]. by left. }
  destruct (status a =? 404); [by simplify_eq/=|].
  destruct (status a =? 401); [by simplify_eq/=|].
  destruct (status a =? 429).
  { destruct (float_retry_after a) as [d|]; [|by simplify_eq/=].
    destruct (check_server_membership fuel guild net1) as [r1|] eqn:E;
      simplify_eq/=.
    destruct (IH _ _ E Hin) as (ev & b & Hs & He).
    exists (((effects (check_token_validity net)
              ++ [Request GuildMember (Answered a)]) ++ [Sleep d]) ++ ev), b.
    split; [done|].
    destruct He as [-> | [-> Hids]]; [left|right; split; [|done]];
      by rewrite <- !app_assoc. }
  destruct (next_reply net1) as [g net2]. simplify_eq/=.
  unfold guilds_fallback in Hin.
  destruct g as [gr|]; [|done].
  destruct (status gr =? 200) eqn:Eg; [|done].
  destruct (body gr) as [|ids] eqn:Eb; [done|].
  destruct (any_guild guild ids) as [[|]|] eqn:Ea; try done.
  eexists _, gr. split; [lia|]. right. split; [done|].
  exists ids. split; [done|]. by apply any_guild_true.
Qed.

Lemma check_token_validity_rejects net :
  returned (check_token_validity net) = false →
  ∃ ev x, effects (check_token_validity net) = ev ++ [Request UsersMe x]
          ∧ ∀ a, x = Answered a → status a ≠ 200.
Proof.
  induction net as [|[a|] net IH]; simpl.
  - intros _. by exists [], Failed.
  - destruct (status a =? 200) eqn:E200; [done|].
    assert (∃ ev x, [Request UsersMe (Answered a)] = ev ++ [Request UsersMe x]
                    ∧ ∀ a0, x = Answered a0 → status a0 ≠ 200) as Hlast.
    { exists [], (Answered a). split; [done|]. intros ? [= <-]. lia. }
    destruct (status a =? 401); [done|].
    destruct (status a =? 429); [|done].
    destruct (float_retry_after a) as [d|]; [|done].
    simpl. intros (ev & x & -> & Hx)%IH.
    by exists (Request UsersMe (Answered a) :: Sleep d :: ev), x.
  - intros _. by exists [], Failed.
Qed.

(** X13. [check_server_membership] reports a credential invalid
    only when its last request was /users/@me and was not answered 200,
    or was the member query and was answered 401.  No answer of the
    guild-list fallback and no failure of the member query does. *)
Theorem invalid_needs_evidence fuel guild net r :
  check_server_membership fuel guild net = Some r →
  valid (returned r) = false →
  ∃ ev x,
    (effects r = ev ++ [Request UsersMe x]
     ∧ ∀ a, x = Answered a → status a ≠ 200)
    ∨ (effects r = ev ++ [Request GuildMember x]
       ∧ ∃ a, x = Answered a ∧ status a = 401).
Proof.
  revert net r. induction fuel as [|fuel IH]; intros net r H Hin; [done|].
  cbn [check_server_membership] in H.
  destruct (negb (returned (check_token_validity net))) eqn:Hv.
  { apply negb_true_iff, check_token_validity_rejects in Hv
      as (ev & x & He & Hx).
    simplify_eq/=. exists ev, x. by left. }
  destruct (next_reply (unread (check_token_validity net))) as [[a|] net1].
  2:{ by simplify_eq/=. }
  destruct (status a =? 200) eqn:E200; [by simplify_eq/=|].
  destruct (status a =? 404); [by simplify_eq/=|].
  destruct (status a =? 401) eqn:E401.
  { simplify_eq/=. eexists _, (Answered a). right. split; [done|].
    exists a. split; [done|lia]. }
  destruct (status a =? 429).
  { destruct (float_retry_after a) as [d|]; [|by simplify_eq/=].
    destruct (check_server_membership fuel guild net1) as [r1|] eqn:E;
      simplify_eq/=.
    destruct (IH _ _ E Hin) as (ev & x & He).
    exists (((effects (check_token_validity net)
              ++ [Request GuildMember (Answered a)]) ++ [Sleep d]) ++ ev), x.
    destruct He as [[-> Hx] | [-> Hx]]; [left|right]; split; try done;
      by rewrite <- !app_assoc. }
  destruct (next_reply net1) as [g net2]. simplify_eq/=.
  unfold guilds_fallback in Hin. by repeat case_match.
Qed.

Lemma in_server_needs_evidence_witness :
  ∃ r, check_server_membership 4 "1"
         [Answered (Response 200 NoRetryAfter NotJson);
          Answered (Response 500 NoRetryAfter NotJson);
          Answered (Response 200 NoRetryAfter
                      (GuildList [Some "7"; Some "1"]))] = Some r
       ∧ in_server (returned r) = true
       ∧ ∃ ev a,
           status a = 200
           ∧ (effects r = ev ++ [Request GuildMember (Answered a)]
              ∨ (effects r = ev ++ [Request UserGuilds (Answered a)]
                 ∧ ∃ ids, body a = GuildList ids ∧ Some "1" ∈ ids)).
Proof.
  eexists. split; [vm_compute; reflexivity|]. split; [reflexivity|].
  eapply (in_server_needs_evidence 4 "1"
            [Answered (Response 200 NoRetryAfter NotJson);
             Answered (Response 500 NoRetryAfter NotJson);
             Answered (Response 200 NoRetryAfter
                         (GuildList [Some "7"; Some "1"]))]);
    [vm_compute; reflexivity|reflexivity].
Defined.

Lemma invalid_needs_evidence_witness :
  ∃ r, check_server_membership 3 "1"
         [Answered (Response 200 NoRetryAfter NotJson);
          Answered (Response 401 NoRetryAfter NotJson)] = Some r
       ∧ valid (returned r) = false
       ∧ ∃ ev x,
           (effects r = ev ++ [Request UsersMe x]
            ∧ ∀ a, x = Answered a → status a ≠ 200)
           ∨ (effects r = ev ++ [Request GuildMember x]
              ∧ ∃ a, x = Answered a ∧ status a = 401).
Proof.
  eexists. split; [vm_compute; reflexivity|]. split; [reflexivity|].
  eapply (invalid_needs_evidence 3 "1"
            [Answered (Response 200 NoRetryAfter NotJson);
             Answered (Response 401 NoRetryAfter NotJson)]);
    [vm_compute; reflexivity|reflexivity].
Defined.

(** ** The initial status pass and the tables *)

Lemma initial_status_pass_general guild sessions initial net :
  ∃ r, initial_status_pass guild sessions initial net = Some r
    ∧ (∀ n, is_Some (returned r !! n) ↔
            n ∈ sessions.*1 ∨ is_Some (initial !! n))
    ∧ (∀ n m, returned r !! n = Some m →
              initial !! n = Some m
              ∨ m ∈ [Membership true true; Membership true false;
                     Membership false false]).
Proof.
  revert initial net.
  induction sessions as [|[nama tok] sessions IH]; intros initial net.
  { eexists. split; [done|]. simpl. split.
    - intros n. rewrite elem_of_nil. tauto.
    - intros n m ?. by left. }
  cbn [initial_status_pass].
  destruct (check_server_membership_total (enough net) guild net)
    as [r0 Hr0]; [unfold enough; lia|].
  rewrite Hr0. cbn [mbind option_bind].
  destruct (IH (<[nama := returned r0]> initial) (unread r0))
    as (r1 & -> & Hdom & Hval).
  eexists. split; [done|]. cbn [fmap option_fmap option_map].
  rewrite after_returned. split.
  - intros n. rewrite Hdom, lookup_insert_is_Some, fmap_cons, elem_of_cons.
    cbn [fst]. destruct (decide (nama = n)); split; intros; destruct_or?;
      destruct_and?; auto.
  - intros n m [Hm|Hm]%Hval; [|by right].
    apply lookup_insert_Some in Hm as [[_ <-]|[_ Hm]]; [right|by left].
    by apply (check_server_membership_sound _ _ _ _ Hr0).
Qed.

(** X14. The initial status pass of [main] (lines 349-351) completes
    whatever the service answers or fails to answer; afterwards
    [initial_status] has an entry for exactly the labels of the
    sessions, and every entry is one of the three statuses the
    membership check returns. *)
Theorem initial_status_pass_records guild sessions net :
  ∃ r, initial_status_pass guild sessions ∅ net = Some r
    ∧ (∀ n, is_Some (returned r !! n) ↔ n ∈ sessions.*1)
    ∧ (∀ n m, returned r !! n = Some m →
              m ∈ [Membership true true; Membership true false;
                   Membership false false]).
Proof.
  destruct (initial_status_pass_general guild sessions ∅ net)
    as (r & Hr & Hdom & Hval).
  exists r. split; [done|]. split.
  - intros n. rewrite Hdom, lookup_empty. split; [|by left].
    intros [?|[? ?]]; done.
  - intros n m [Hm|Hm]%Hval; [|done]. by rewrite lookup_empty in Hm.
Qed.

(** X15. The pass and the pollers together: a poller that got past
    line 182 belongs to a credential the initial pass recorded as valid
    and in the server; a credential recorded as invalid, or as valid
    but outside the server, is never polled. *)
Theorem only_members_are_polled guild sessions net r schedule s i p :
  initial_status_pass guild sessions ∅ net = Some r →
  run (start_monitoring sessions (returned r) guild) schedule = Some s →
  pollers s !! i = Some p →
  pc p ≠ NotStarted → pc p ≠ Skipped →
  returned r !! nama_token p = Some (Membership true true).
Proof.
  intros Hr Hrun Hp Hn Hs.
  destruct (skipped_all_along _ _ _ _ _ Hrun) as [_ Hskip].
  destruct (initial_status_pass_general guild sessions ∅ net)
    as (r' & Hr' & _ & Hval).
  assert (r' = r) as -> by congruence.
  destruct (initially_in_server (returned r) (nama_token p)) eqn:Hin.
  2:{ destruct (Hskip _ _ Hp Hin) as [[?|?] _]; done. }
  unfold initially_in_server, get_in_server in Hin.
  destruct (returned r !! nama_token p) as [m|] eqn:Hm; [|done].
  simpl in Hin. destruct (Hval _ _ Hm) as [He|Hthree].
  - by rewrite lookup_empty in He.
  - rewrite !elem_of_cons, elem_of_nil in Hthree.
    destruct_or?; subst; done.
Qed.

(** X16. On every status the membership check returns, the initial
    table (lines 352-354), the monitor table (lines 209-220, no exit
    and no forced leave) and the final table (lines 396-404, no exit)
    sort the credential alike.  The initial table tests [in_server]
    first and the other two [valid] first; they agree because the check
    never returns a status that is invalid yet in the server. *)
Theorem status_texts_agree fuel guild net r :
  check_server_membership fuel guild net = Some r →
  (initial_status_text (returned r) = InitialDiServer
   ↔ get_status_text (Some (returned r)) false false = DiServer)
  ∧ (initial_status_text (returned r) = InitialTidakValid
     ↔ get_status_text (Some (returned r)) false false = TidakValid)
  ∧ (get_status_text (Some (returned r)) false false = DiServer
     ↔ get_final_status_text (Some (returned r)) false = FinalDiServer)
  ∧ (get_status_text (Some (returned r)) false false = TidakValid
     ↔ get_final_status_text (Some (returned r)) false = FinalTidakValid)
  ∧ (get_status_text (Some (returned r)) false false = TidakDiServer
     ↔ get_final_status_text (Some (returned r)) false = BannedKicked).
Proof.
  intros Hthree%check_server_membership_sound.
  rewrite !elem_of_cons, elem_of_nil in Hthree.
  destruct_or?; try done; rewrite Hthree; by vm_compute.
Qed.

Lemma only_members_are_polled_witness :
  ∃ r s p,
    initial_status_pass "1" [("A", "a"); ("B", "b")] ∅
      [Answered (Response 200 NoRetryAfter NotJson);
       Answered (Response 200 NoRetryAfter NotJson);
       Answered (Response 200 NoRetryAfter NotJson);
       Answered (Response 404 NoRetryAfter NotJson)] = Some r
    ∧ run (start_monitoring [("A", "a"); ("B", "b")] (returned r) "1")
          [(0%nat, Start); (1%nat, Start)] = Some s
    ∧ pollers s !! 0%nat = Some p
    ∧ pc p = AwaitMembership
    ∧ returned r !! nama_token p = Some (Membership true true).
Proof.
  eexists _, _, _.
  split; [vm_compute; reflexivity|].
  split; [vm_compute; reflexivity|].
  split; [vm_compute; reflexivity|].
  split; [reflexivity|].
  eapply (only_members_are_polled "1" [("A", "a"); ("B", "b")]
            [Answered (Response 200 NoRetryAfter NotJson);
             Answered (Response 200 NoRetryAfter NotJson);
             Answered (Response 200 NoRetryAfter NotJson);
             Answered (Response 404 NoRetryAfter NotJson)]
            _ [(0%nat, Start); (1%nat, Start)] _ 0%nat);
    [vm_compute; reflexivity|vm_compute; reflexivity|vm_compute; reflexivity
    |done|done].
Defined.

Lemma status_texts_agree_witness :
  initial_status_text (Membership true true) = InitialDiServer
  ↔ get_status_text (Some (Membership true true)) false false = DiServer.
Proof.
  apply (status_texts_agree 3 "1"
           [Answered (Response 200 NoRetryAfter NotJson);
            Answered (Response 200 NoRetryAfter NotJson)]
           (Ran (Membership true true)
                [Request UsersMe (Answered (Response 200 NoRetryAfter NotJson));
                 Request GuildMember
                   (Answered (Response 200 NoRetryAfter NotJson))] [])).
  reflexivity.
Defined.

(** ** More on the pollers *)

(** Whatever is observed was let observe by one step of the run. *)
Lemma run_observed s0 schedule s o :
  run s0 schedule = Some s → o ∈ trace s →
  o ∈ trace s0
  ∨ ∃ pre it post s1 p p' active seen,
      schedule = pre ++ it :: post
      ∧ run s0 pre = Some s1
      ∧ pollers s1 !! it.1 = Some p
      ∧ resumes s1 it.1 p p' active seen
      ∧ o ∈ seen.
Proof.
  revert s0. induction schedule as [|it schedule IH]; intros s0 Hrun Ho.
  { simplify_eq/=. by left. }
  simpl in Hrun. destruct (step s0 it) as [s1|] eqn:Hstep; simplify_eq/=.
  destruct (IH _ Hrun Ho) as [Hin|Hlater].
  - apply step_resumes in Hstep
      as (p & p' & seen & Hp & Hr & _ & _ & _ & _ & Htr).
    rewrite Htr in Hin. apply elem_of_app in Hin as [?|?]; [by left|].
    right. exists [], it, schedule, s0, p, p', (monitoring_active s1), seen.
    done.
  - destruct Hlater
      as (pre & it' & post & s2 & p & p' & active & seen & -> & Hpre & ?).
    right. exists (it :: pre), it', post, s2, p, p', active, seen.
    split; [done|]. split; [|done]. simpl. by rewrite Hstep.
Qed.

(** What every poller satisfies at its creation and keeps over each of
    its own steps, it satisfies all along. *)
Lemma pollers_invariant tokens initial guild (Q : poller → Prop) :
  (∀ c : credential, Q (Poller c.1 c.2 None ∅ ∅ NotStarted)) →
  (∀ s i p p' active seen,
     initial_status s = initial → all_tokens s = tokens →
     Q p → resumes s i p p' active seen → Q p') →
  ∀ schedule s,
    run (start_monitoring tokens initial guild) schedule = Some s →
    ∀ i p, pollers s !! i = Some p → Q p.
Proof.
  intros Hstart Hkeep.
  apply (run_invariant
           (fun s => (initial_status s = initial ∧ all_tokens s = tokens)
                     ∧ ∀ i p, pollers s !! i = Some p → Q p)).
  - split; [done|]. simpl. intros i p Hp.
    change (map ?f tokens) with (f <$> tokens) in Hp.
    apply list_lookup_fmap_Some in Hp as (c & -> & _). apply Hstart.
  - intros s it s' [[Hi Ht] IH] Hstep.
    apply step_resumes in Hstep
      as (p & p' & seen & Hp & Hr & Hi' & Ht' & _ & Hps & _).
    split; [split; congruence|]. intros j q Hq. rewrite Hps in Hq.
    apply list_lookup_insert_Some in Hq as [(<- & <- & _)|[_ Hq]].
    + eapply Hkeep; [done|done| |done]. by eapply IH.
    + by eapply IH.
Qed.

(** *** The flag is never set again *)

(** X17. Nothing sets [monitoring_active[0]] back to [True]: once it
    is [False] it stays so along every run, and no poller starts
    another membership check; a poller found at line 223 afterwards
    was suspended there all the time, untouched. *)
Theorem flag_never_set_again s schedule s' :
  run s schedule = Some s' →
  monitoring_active s = false →
  monitoring_active s' = false
  ∧ ∀ i p', pollers s' !! i = Some p' → pc p' = AwaitMembership →
            pollers s !! i = Some p'.
Proof.
  intros Hrun Hoff. revert schedule s' Hrun.
  apply (run_invariant
           (fun s' => monitoring_active s' = false
                      ∧ ∀ i p', pollers s' !! i = Some p' →
                                pc p' = AwaitMembership →
                                pollers s !! i = Some p')).
  { done. }
  intros s1 it s2 [Hflag IH] Hstep.
  apply step_resumes in Hstep
    as (p & p' & seen & Hp & Hr & _ & _ & _ & Hps & _).
  split.
  { rewrite (resumes_flag _ _ _ _ _ _ Hr), Hflag. done. }
  intros j q Hq Hpc. rewrite Hps in Hq.
  apply list_lookup_insert_Some in Hq as [(<- & <- & _)|[_ Hq]];
    [|by apply IH].
  exfalso. destruct Hr; simpl in Hpc; try done;
    rewrite Hflag in Hpc; done.
Qed.

Lemma flag_never_set_again_witness :
  ∃ s',
    run (Monitor false ∅ [("A", "a")] "1"
           [Poller "A" "a" None ∅ ∅ AwaitInterval] [])
        [(0%nat, IntervalOver)] = Some s'
    ∧ monitoring_active s' = false.
Proof.
  eexists. split; [vm_compute; reflexivity|].
  eapply (flag_never_set_again
            (Monitor false ∅ [("A", "a")] "1"
               [Poller "A" "a" None ∅ ∅ AwaitInterval] [])
            [(0%nat, IntervalOver)]);
    [vm_compute; reflexivity|reflexivity].
Defined.

(** *** Whom the leave calls are made for *)

Lemma resumes_leave_target s i p p' active seen j other b :
  resumes s i p p' active seen → LeaveCalled j other b ∈ seen →
  pc p = AwaitMembership
  ∧ other ≠ nama_token p
  ∧ initially_in_server (initial_status s) other = true
  ∧ other ∈ (all_tokens s).*1.
Proof.
  intros Hr Ho.
  destruct Hr; rewrite ?elem_of_app, ?elem_of_cons, ?elem_of_nil in Ho;
    destruct_or?; simplify_eq; try done.
  change (map ?f ?l) with (f <$> l) in Ho.
  apply list_elem_of_fmap in Ho as (c & ? & Hc). simplify_eq.
  apply list_elem_of_filter in Hc as [[Hne Hin] Hc].
  split_and!; try done. apply list_elem_of_fmap. by exists c.
Qed.

(** X18. Every [leave_server] call of a fan-out is made by a poller
    whose own credential started in the server, for a credential of
    [all_tokens] with another label that started in the server, too:
    never for the banned credential itself, never for a credential
    that was outside at the start. *)
Theorem leave_calls_target_other_members
    tokens initial guild schedule s i other active :
  run (start_monitoring tokens initial guild) schedule = Some s →
  LeaveCalled i other active ∈ trace s →
  ∃ c, tokens !! i = Some c
       ∧ initially_in_server initial c.1 = true
       ∧ other ≠ c.1
       ∧ other ∈ tokens.*1
       ∧ initially_in_server initial other = true.
Proof.
  intros Hrun Ho.
  destruct (run_observed _ _ _ _ Hrun Ho) as [Hin|Hstep].
  { by apply elem_of_nil in Hin. }
  destruct Hstep
    as (pre & it & post & s1 & p & p' & act & seen & _ & Hpre & Hp & Hr & Hseen).
  pose proof (resumes_observer _ _ _ _ _ _ _ Hr Hseen) as Hi.
  simpl in Hi. subst i.
  destruct (run_static _ _ _ _ _ Hpre) as (Hinit & Htok & _ & Hlab).
  destruct (skipped_all_along _ _ _ _ _ Hpre) as [_ Hskip].
  destruct (resumes_leave_target _ _ _ _ _ _ _ _ _ Hr Hseen)
    as (Hpc & Hne & Hin & Hmem).
  rewrite Hinit in Hin. rewrite Htok in Hmem.
  pose proof (poller_label _ _ _ _ Hlab Hp) as Hl.
  apply list_lookup_fmap_Some in Hl as (c & Hc & Hl).
  exists c. rewrite <- Hc. split_and!; try done.
  destruct (initially_in_server initial (nama_token p)) eqn:E; [done|].
  destruct (Hskip _ _ Hp E) as [[?|?] _]; congruence.
Qed.

(** *** What the fan-out files *)

Lemma record_results_pc i results tokens p :
  pc (record_results i results tokens p) = pc p.
Proof.
  revert i p. induction results as [|[] results IH]; intros i p; simpl;
    [done|by rewrite IH..].
Qed.

Lemma record_results_exit_success i results tokens p n b :
  exit_success (record_results i results tokens p) !! n = Some b →
  exit_success p !! n = Some b
  ∨ (b = true
     ∧ ∃ k, (i ≤ k < i + length results)%nat
            ∧ n = default "" (fst <$> tokens !! k)).
Proof.
  revert i p. induction results as [|result results IH]; intros i p H.
  { by left. }
  cbn [record_results] in H. apply IH in H as [H|(-> & k & Hk & ->)].
  - destruct result; simpl in H; [|by left].
    apply lookup_insert_Some in H as [[<- <-]|[_ H]]; [|by left].
    right. split; [done|]. exists i. split; [simpl; lia|done].
  - right. split; [done|]. exists k. split; [simpl; lia|done].
Qed.

Lemma files_in_range_all_along tokens initial guild schedule s i p :
  run (start_monitoring tokens initial guild) schedule = Some s →
  pollers s !! i = Some p →
  files_in_range initial tokens p.
Proof.
  intros Hrun Hp.
  eapply (pollers_invariant tokens initial guild
            (files_in_range initial tokens)); [| |exact Hrun|exact Hp].
  { intros c. split; simpl; [intros n b Hex|done].
    by rewrite lookup_empty in Hex. }
  clear. intros s i p p' active seen Hi Ht [HA HB] Hr.
  assert (pc p ≠ Finished → exit_success p = ∅) as Hnone.
  { intros Hpc. apply map_empty. intros n.
    destruct (exit_success p !! n) as [b|] eqn:E; [|done].
    by destruct (HA _ _ E) as (_ & ? & _). }
  destruct Hr as [Hpc ?|Hpc ?|? Hpc ?|? Hpc ? ?|? Hpc ? ? ? ?|? Hpc ? ? ? ?
                 |? Hpc ? ? ?|leave_tasks results Hpc Hlen|Hpc];
    try (split; simpl; [intros n b Hex|try done];
         rewrite ?Hnone in Hex by congruence;
         by rewrite ?lookup_empty in Hex).
  - (* lines 184-186, 222 *)
    split; simpl; [intros n b Hex|by destruct (monitoring_active s)].
    by rewrite lookup_empty in Hex.
  - (* line 241: the leave tasks are made *)
    split; simpl; [intros n b Hex|].
    + rewrite Hnone in Hex by congruence. by rewrite lookup_empty in Hex.
    + intros ? [= <-]. by rewrite Hi, Ht.
  - (* lines 244-253 *)
    split; simpl; [intros n b Hex|done].
    rewrite record_results_nama.
    apply record_results_exit_success in Hex as [Hex|(-> & k & Hk & ->)].
    { rewrite Hnone in Hex by congruence. by rewrite lookup_empty in Hex. }
    split_and!; [done|done|]. exists k.
    rewrite (HB _ Hpc) in Hlen. split; [lia|].
    assert (k < length tokens)%nat as Hin.
    { pose proof (length_filter
                    (fun c : credential =>
                       c.1 ≠ nama_token p
                       ∧ initially_in_server initial c.1 = true) tokens).
      unfold leave_targets in Hlen. lia. }
    apply lookup_lt_is_Some_2 in Hin as [c Hc].
    rewrite Ht, list_lookup_fmap, Hc. done.
  - (* line 222 *)
    split; simpl; [intros n b Hex|by destruct (monitoring_active s)].
    rewrite Hnone in Hex by congruence. by rewrite lookup_empty in Hex.
Qed.

(** X19. [exit_success] only ever holds [True], only in a poller that
    has returned at line 294, and only under one of the first labels
    of [all_tokens], as many as the poller had leave tasks. *)
Theorem exit_success_entries tokens initial guild schedule s i p n b :
  run (start_monitoring tokens initial guild) schedule = Some s →
  pollers s !! i = Some p →
  exit_success p !! n = Some b →
  b = true ∧ pc p = Finished
  ∧ ∃ k, (k < length (leave_targets initial tokens (nama_token p)))%nat
         ∧ tokens.*1 !! k = Some n.
Proof.
  intros Hrun Hp. by apply (files_in_range_all_along _ _ _ _ _ _ _ Hrun Hp).
Qed.

Lemma awaited_leaves_nonempty tokens initial guild schedule s i p leave_tasks :
  run (start_monitoring tokens initial guild) schedule = Some s →
  pollers s !! i = Some p →
  pc p = AwaitLeaves leave_tasks → leave_tasks ≠ [].
Proof.
  intros Hrun Hp. revert leave_tasks.
  eapply (pollers_invariant tokens initial guild
            (fun q => ∀ l, pc q = AwaitLeaves l → l ≠ []));
    [| |exact Hrun|exact Hp]; [done|].
  clear. intros s i p p' active seen _ _ HQ Hr l.
  destruct Hr; simpl; try done.
  - by destruct (monitoring_active s).
  - by intros [= <-].
  - by destruct (monitoring_active s).
Qed.

(** X20. A poller suspended at line 244 awaits the leave tasks of
    lines 236-241, at least one and fewer than there are credentials:
    the index of line 246 is always within [all_tokens], so that line
    cannot raise IndexError. *)
Theorem leave_results_index_in_range
    tokens initial guild schedule s i p leave_tasks :
  run (start_monitoring tokens initial guild) schedule = Some s →
  pollers s !! i = Some p →
  pc p = AwaitLeaves leave_tasks →
  leave_tasks = leave_targets initial tokens (nama_token p)
  ∧ (0 < length leave_tasks < length tokens)%nat
  ∧ ∀ k, (k < length leave_tasks)%nat → is_Some (tokens.*1 !! k).
Proof.
  intros Hrun Hp Hpc.
  destruct (files_in_range_all_along _ _ _ _ _ _ _ Hrun Hp) as [_ HB].
  specialize (HB _ Hpc).
  pose proof (awaited_leaves_nonempty _ _ _ _ _ _ _ _ Hrun Hp Hpc) as Hne.
  destruct (run_static _ _ _ _ _ Hrun) as (_ & _ & _ & Hlab).
  pose proof (poller_label _ _ _ _ Hlab Hp) as Hl.
  apply list_lookup_fmap_Some in Hl as (c & Hc & Hl).
  assert (length leave_tasks < length tokens)%nat as Hlt.
  { rewrite HB. unfold leave_targets.
    apply (length_filter_lt _ _ c); [by eapply list_elem_of_lookup_2|].
    intros [Hne' _]. by rewrite Hc in Hne'. }
  split; [done|]. split.
  - split; [|done]. destruct leave_tasks; [done|simpl; lia].
  - intros k Hk. apply lookup_lt_is_Some_2.
    rewrite length_fmap. lia.
Qed.

(** *** Bans *)

(** X21. The ban branch of line 230 is entered by a poller exactly
    when one of its checks returned valid and not in the server while
    its last status said in the server; it is entered at most once by
    each poller, which from then on stands at line 244 or has returned
    and never polls again. *)
Theorem ban_detection_rule tokens initial guild schedule s i :
  run (start_monitoring tokens initial guild) schedule = Some s →
  (BanDetected i ∈ trace s ↔
   ∃ before, Checked i before (Membership true false) ∈ trace s
             ∧ get_in_server before = true)
  ∧ NoDup (bans (trace s))
  ∧ (BanDetected i ∈ trace s →
     ∃ p, pollers s !! i = Some p ∧ banned (pc p)).
Proof.
  intros Hrun.
  destruct (fan_out_all_along _ _ _ _ _ Hrun)
    as (_ & Hban & Hnd & _ & Hin & Hout).
  split_and!; [split|done|].
  - intros ?%elem_of_bans. by apply Hout.
  - intros (before & ? & ?). apply elem_of_bans. by eapply Hin.
  - intros ?%elem_of_bans. by apply Hban.
Qed.

Lemma owed_sum initial (tokens : list credential) n (l : list nat) :
  NoDup tokens.*1 →
  Forall (fun i => is_Some (tokens !! i)) l →
  sum_list (owed initial tokens n <$> l) =
    if bool_decide (n ∈ tokens.*1 ∧ initially_in_server initial n = true)
    then length (filter (fun i => tokens.*1 !! i ≠ Some n) l)
    else 0%nat.
Proof.
  intros Hnd. induction 1 as [|i l Hi _ IH].
  { by case_bool_decide. }
  rewrite fmap_cons. cbn [sum_list sum_list_with]. rewrite IH.
  rewrite (owed_once _ _ _ _ Hnd Hi), filter_cons.
  destruct (decide (tokens.*1 !! i ≠ Some n)) as [Hne|He].
  - case_bool_decide as Hin.
    + rewrite bool_decide_eq_true_2; [done|]. by destruct Hin.
    + rewrite bool_decide_eq_false_2; [done|]. intros (? & _ & ?). auto.
  - rewrite (bool_decide_eq_false_2 (_ ∧ _ ∧ _)); [done|].
    intros (_ & ? & _). done.
Qed.

(** X22. Labels being unique, the [leave_server] calls made for a
    credential are counted by the bans: one for every poller with
    another label that entered the ban branch, if the credential
    started in the server, and none otherwise.  Several bans make
    several calls for the same credential. *)
Theorem leave_calls_per_ban tokens initial guild schedule s n :
  NoDup tokens.*1 →
  run (start_monitoring tokens initial guild) schedule = Some s →
  leave_calls n (trace s) =
    if bool_decide (n ∈ tokens.*1 ∧ initially_in_server initial n = true)
    then length (filter (fun i => tokens.*1 !! i ≠ Some n) (bans (trace s)))
    else 0%nat.
Proof.
  intros Hnd Hrun.
  destruct (fan_out_all_along _ _ _ _ _ Hrun)
    as ((_ & _ & Hlab) & Hban & _ & Hcount & _).
  rewrite Hcount. apply owed_sum; [done|].
  apply Forall_forall. intros i (p & Hp & _)%Hban.
  pose proof (poller_label _ _ _ _ Hlab Hp) as Hl.
  apply list_lookup_fmap_Some in Hl as (c & _ & ->). by eexists.
Qed.

(** *** The merged exits *)

Lemma merged_exits (ps : list poller) acc n :
  (∀ p b, p ∈ ps → exit_success p !! n = Some b →
          b = true ∧ pc p = Finished) →
  (∀ b, acc !! n = Some b → b = true) →
  ∀ b,
    foldl (fun acc p =>
             match pc p with
             | Finished => exit_success p ∪ acc
             | _ => acc
             end) acc ps !! n = Some b ↔
    b = true
    ∧ (acc !! n = Some true
       ∨ ∃ p, p ∈ ps ∧ exit_success p !! n = Some true).
Proof.
  revert acc. induction ps as [|p ps IH]; intros acc Hps Hacc b; simpl.
  { split.
    - intros Hb. pose proof (Hacc _ Hb). subst. auto.
    - intros [-> [?|(? & []%elem_of_nil & _)]]. done. }
  assert (∀ b', exit_success p !! n = Some b' → b' = true ∧ pc p = Finished)
    as Hp by (intros b'; apply Hps; left).
  rewrite IH; clear IH.
  - split; intros [-> Hor]; (split; [done|]).
    + destruct Hor as [Hm|(q & Hq & He)].
      * destruct (pc p) eqn:Hpc; auto.
        apply lookup_union_Some_raw in Hm as [Hm|[_ Hm]]; [|by left].
        right. exists p. split; [left|done].
      * right. exists q. split; [by right|done].
    + destruct Hor as [Hm|(q & Hq & He)].
      * left. destruct (pc p); try done.
        apply lookup_union_Some_raw.
        destruct (exit_success p !! n) as [b'|] eqn:E; [|by right].
        left. by destruct (Hp _ eq_refl) as [-> _].
      * apply elem_of_cons in Hq as [->|Hq]; [|right; by exists q].
        left. destruct (Hp _ He) as [_ ->].
        apply lookup_union_Some_raw. by left.
  - intros q b' Hq. apply Hps. by right.
  - intros b'. destruct (pc p); try apply Hacc.
    intros [Hm|[_ Hm]]%lookup_union_Some_raw; [|by apply Hacc].
    by destruct (Hp _ Hm).
Qed.

(** X23. The dict merged at line 370 never maps a label to [False],
    and maps it to [True] exactly when some poller that returned at
    line 294 recorded it in its own [exit_success]. *)
Theorem all_exit_success_collects tokens initial guild schedule s n :
  run (start_monitoring tokens initial guild) schedule = Some s →
  all_exit_success s !! n ≠ Some false
  ∧ (all_exit_success s !! n = Some true ↔
     ∃ i p, pollers s !! i = Some p ∧ pc p = Finished
            ∧ exit_success p !! n = Some true).
Proof.
  intros Hrun.
  assert (∀ p b, p ∈ pollers s → exit_success p !! n = Some b →
                 b = true ∧ pc p = Finished) as Hps.
  { intros p b (i & Hp)%list_elem_of_lookup Hb.
    destruct (files_in_range_all_along _ _ _ _ _ _ _ Hrun Hp) as [HA _].
    destruct (HA _ _ Hb) as (? & ? & _). done. }
  pose proof (merged_exits (pollers s) ∅ n Hps) as Hm.
  unfold all_exit_success. split.
  - intros Hf. apply Hm in Hf as [? _]; [done|].
    intros b Hb. by rewrite lookup_empty in Hb.
  - rewrite Hm by (intros b Hb; by rewrite lookup_empty in Hb).
    rewrite lookup_empty. split.
    + intros [_ [?|(p & (i & Hp)%list_elem_of_lookup & He)]]; [done|].
      exists i, p. split_and!; try done. by destruct (Hps p true) as [_ ?];
        [apply list_elem_of_lookup; eauto|done|].
    + intros (i & p & Hp & _ & He). split; [done|]. right.
      exists p. split; [by eapply list_elem_of_lookup_2|done].
Qed.

Lemma leave_calls_target_other_members_witness :
  ∃ s,
    run (start_monitoring [("A", "a"); ("B", "b"); ("C", "c")]
            {["A" := Membership true true; "B" := Membership true true;
              "C" := Membership true false]} "1")
         [(0%nat, Start); (1%nat, Start); (2%nat, Start);
          (0%nat, MembershipDone
                    [Answered (Response 200 NoRetryAfter NotJson);
                     Answered (Response 404 NoRetryAfter NotJson)])] = Some s
    ∧ LeaveCalled 0 "B" true ∈ trace s
    ∧ ∃ c, [("A", "a"); ("B", "b"); ("C", "c")] !! 0%nat = Some c
           ∧ initially_in_server
               {["A" := Membership true true; "B" := Membership true true;
              "C" := Membership true false]} c.1 = true
           ∧ "B" ≠ c.1
           ∧ "B" ∈ [("A", "a"); ("B", "b"); ("C", "c")].*1
           ∧ initially_in_server
               {["A" := Membership true true; "B" := Membership true true;
              "C" := Membership true false]} "B" = true.
Proof.
  eexists. split; [vm_compute; reflexivity|]. split; [listed|].
  eapply (leave_calls_target_other_members
            [("A", "a"); ("B", "b"); ("C", "c")]
            {["A" := Membership true true; "B" := Membership true true;
              "C" := Membership true false]} "1"
            [(0%nat, Start); (1%nat, Start); (2%nat, Start);
          (0%nat, MembershipDone
                    [Answered (Response 200 NoRetryAfter NotJson);
                     Answered (Response 404 NoRetryAfter NotJson)])]
            _ 0%nat "B" true);
    [vm_compute; reflexivity|listed].
Defined.

Lemma exit_success_entries_witness :
  ∃ s p,
    run (start_monitoring [("A", "a"); ("B", "b"); ("C", "c")]
            {["A" := Membership true true; "B" := Membership true true;
              "C" := Membership true false]} "1")
         [(0%nat, Start); (1%nat, Start); (2%nat, Start);
          (0%nat, MembershipDone
                    [Answered (Response 200 NoRetryAfter NotJson);
                     Answered (Response 404 NoRetryAfter NotJson)]);
          (0%nat, LeavesDone [[Answered (Response 204 NoRetryAfter NotJson)]])] = Some s
    ∧ pollers s !! 0%nat = Some p
    ∧ exit_success p !! "A" = Some true
    ∧ pc p = Finished.
Proof.
  eexists _, _. split; [vm_compute; reflexivity|].
  split; [reflexivity|]. split; [vm_compute; reflexivity|].
  eapply (exit_success_entries
            [("A", "a"); ("B", "b"); ("C", "c")]
            {["A" := Membership true true; "B" := Membership true true;
              "C" := Membership true false]} "1"
            [(0%nat, Start); (1%nat, Start); (2%nat, Start);
          (0%nat, MembershipDone
                    [Answered (Response 200 NoRetryAfter NotJson);
                     Answered (Response 404 NoRetryAfter NotJson)]);
          (0%nat, LeavesDone [[Answered (Response 204 NoRetryAfter NotJson)]])]
            _ 0%nat _ "A" true);
    [vm_compute; reflexivity|reflexivity|vm_compute; reflexivity].
Defined.

Lemma leave_results_index_in_range_witness :
  ∃ s p,
    run (start_monitoring [("A", "a"); ("B", "b"); ("C", "c")]
            {["A" := Membership true true; "B" := Membership true true;
              "C" := Membership true false]} "1")
         [(0%nat, Start); (1%nat, Start); (2%nat, Start);
          (0%nat, MembershipDone
                    [Answered (Response 200 NoRetryAfter NotJson);
                     Answered (Response 404 NoRetryAfter NotJson)])] = Some s
    ∧ pollers s !! 0%nat = Some p
    ∧ pc p = AwaitLeaves [("B", "b")]
    ∧ (0 < length [("B", "b")] < 3)%nat.
Proof.
  eexists _, _. split; [vm_compute; reflexivity|].
  split; [reflexivity|]. split; [reflexivity|].
  eapply (leave_results_index_in_range
            [("A", "a"); ("B", "b"); ("C", "c")]
            {["A" := Membership true true; "B" := Membership true true;
              "C" := Membership true false]} "1"
            [(0%nat, Start); (1%nat, Start); (2%nat, Start);
          (0%nat, MembershipDone
                    [Answered (Response 200 NoRetryAfter NotJson);
                     Answered (Response 404 NoRetryAfter NotJson)])]
            _ 0%nat _ [("B", "b")]);
    [vm_compute; reflexivity|reflexivity|reflexivity].
Defined.

Lemma ban_detection_rule_witness :
  ∃ s,
    run (start_monitoring [("A", "a"); ("B", "b"); ("C", "c")]
            {["A" := Membership true true; "B" := Membership true true;
              "C" := Membership true false]} "1")
         [(0%nat, Start); (1%nat, Start); (2%nat, Start);
          (0%nat, MembershipDone
                    [Answered (Response 200 NoRetryAfter NotJson);
                     Answered (Response 404 NoRetryAfter NotJson)])] = Some s
    ∧ NoDup (bans (trace s)).
Proof.
  eexists. split; [vm_compute; reflexivity|].
  eapply (ban_detection_rule
            [("A", "a"); ("B", "b"); ("C", "c")]
            {["A" := Membership true true; "B" := Membership true true;
              "C" := Membership true false]} "1"
            [(0%nat, Start); (1%nat, Start); (2%nat, Start);
          (0%nat, MembershipDone
                    [Answered (Response 200 NoRetryAfter NotJson);
                     Answered (Response 404 NoRetryAfter NotJson)])]
            _ 0%nat).
  vm_compute. reflexivity.
Defined.

Lemma leave_calls_per_ban_witness :
  ∃ s,
    run (start_monitoring [("A", "a"); ("B", "b"); ("C", "c")]
            {["A" := Membership true true; "B" := Membership true true;
              "C" := Membership true false]} "1")
         [(0%nat, Start); (1%nat, Start); (2%nat, Start);
          (0%nat, MembershipDone
                    [Answered (Response 200 NoRetryAfter NotJson);
                     Answered (Response 404 NoRetryAfter NotJson)]);
          (0%nat, LeavesDone [[Answered (Response 204 NoRetryAfter NotJson)]])] = Some s
    ∧ leave_calls "B" (trace s) = 1%nat.
Proof.
  eexists. split; [vm_compute; reflexivity|].
  etrans;
    [apply (leave_calls_per_ban
              [("A", "a"); ("B", "b"); ("C", "c")]
              {["A" := Membership true true; "B" := Membership true true;
              "C" := Membership true false]} "1"
              [(0%nat, Start); (1%nat, Start); (2%nat, Start);
          (0%nat, MembershipDone
                    [Answered (Response 200 NoRetryAfter NotJson);
                     Answered (Response 404 NoRetryAfter NotJson)]);
          (0%nat, LeavesDone [[Answered (Response 204 NoRetryAfter NotJson)]])])
    |vm_compute; reflexivity].
  - apply (bool_decide_unpack _). by vm_compute.
  - vm_compute. reflexivity.
Defined.

Lemma all_exit_success_collects_witness :
  ∃ s,
    run (start_monitoring [("A", "a"); ("B", "b"); ("C", "c")]
            {["A" := Membership true true; "B" := Membership true true;
              "C" := Membership true false]} "1")
         [(0%nat, Start); (1%nat, Start); (2%nat, Start);
          (0%nat, MembershipDone
                    [Answered (Response 200 NoRetryAfter NotJson);
                     Answered (Response 404 NoRetryAfter NotJson)]);
          (0%nat, LeavesDone [[Answered (Response 204 NoRetryAfter NotJson)]])] = Some s
    ∧ all_exit_success s !! "B" ≠ Some false.
Proof.
  eexists. split; [vm_compute; reflexivity|].
  eapply (all_exit_success_collects
            [("A", "a"); ("B", "b"); ("C", "c")]
            {["A" := Membership true true; "B" := Membership true true;
              "C" := Membership true false]} "1"
            [(0%nat, Start); (1%nat, Start); (2%nat, Start);
          (0%nat, MembershipDone
                    [Answered (Response 200 NoRetryAfter NotJson);
                     Answered (Response 404 NoRetryAfter NotJson)]);
          (0%nat, LeavesDone [[Answered (Response 204 NoRetryAfter NotJson)]])]).
  vm_compute. reflexivity.
Defined.

